(** * HailoRT core-op metadata: a shallow embedding of
      [libhailort/src/hef/core_op_metadata.cpp] and the properties of its
      query and derivation functions. *)

From Stdlib Require Import List String Ascii Bool Arith ZArith Lia Permutation Sorted.
Import ListNotations.
Open Scope string_scope.
Open Scope list_scope.

(** ** Status codes and fallible results *)

(** The members of [hailo_status] that the translated functions produce or
    pass on. *)
Inductive hailo_status : Type :=
| HAILO_SUCCESS
| HAILO_INVALID_ARGUMENT
| HAILO_NOT_IMPLEMENTED
| HAILO_INTERNAL_FAILURE
| HAILO_NOT_FOUND.

(** [Expected<T>]: a value, or [make_unexpected(status)]. *)
Inductive Expected (T : Type) : Type :=
| Ok (value : T)
| Unexpected (status : hailo_status).
Arguments Ok {T} value.
Arguments Unexpected {T} status.

(** [CHECK_EXPECTED]: leave the enclosing function with the failure, or go on
    with the value. *)
Definition bindE {A B : Type} (e : Expected A) (k : A -> Expected B) : Expected B :=
  match e with
  | Ok a => k a
  | Unexpected s => Unexpected s
  end.

Declare Scope expected_scope.
Delimit Scope expected_scope with expected.
Notation "'let?' x ':=' e 'in' k" :=
  (bindE e (fun x => k))
  (at level 10, x name, e at level 100, k at level 200)
  : expected_scope.

(** ** LayerInfo *)

Inductive hailo_stream_direction_t : Type :=
| HAILO_H2D_STREAM
| HAILO_D2H_STREAM.

Definition direction_eqb (a b : hailo_stream_direction_t) : bool :=
  match a, b with
  | HAILO_H2D_STREAM, HAILO_H2D_STREAM => true
  | HAILO_D2H_STREAM, HAILO_D2H_STREAM => true
  | _, _ => false
  end.

(** The fields of [LayerInfo] that [core_op_metadata.cpp] reads.
    [predecessor] and [fused_nms_layer] are [std::vector<LayerInfo>]. *)
#[local] Unset Elimination Schemes.
Inductive LayerInfo : Type :=
  mkLayerInfo {
      name : string;
      direction : hailo_stream_direction_t;
      network_name : string;
      is_mux : bool;
      predecessor : list LayerInfo;
      is_defused_nms : bool;
      fused_nms_layer : list LayerInfo
    }.
#[local] Set Elimination Schemes.

(** A physical (non-mux, not defused) layer. *)
Definition leaf_layer (n : string) (d : hailo_stream_direction_t) (net : string) : LayerInfo :=
  mkLayerInfo n d net false [] false [].

(** A mux layer over the given predecessors. *)
Definition mux_layer (n : string) (d : hailo_stream_direction_t) (net : string)
    (preds : list LayerInfo) : LayerInfo :=
  mkLayerInfo n d net true preds false [].

(** A defused-NMS fragment of the fused layer [fused]. *)
Definition defused_layer (n : string) (d : hailo_stream_direction_t) (net : string)
    (fused : list LayerInfo) : LayerInfo :=
  mkLayerInfo n d net false [] true fused.

(** Induction over the predecessor tree: the property holds of a layer as soon
    as it holds of each of its predecessors. *)
Section LayerInfo_pred_ind.
Variable P : LayerInfo -> Prop.
Hypothesis step :
  forall n d net mux preds defused fused,
    Forall P preds -> P (mkLayerInfo n d net mux preds defused fused).

Fixpoint LayerInfo_pred_ind (info : LayerInfo) : P info :=
  match info with
  | mkLayerInfo n d net mux preds defused fused =>
      step n d net mux preds defused fused
        ((fix all (l : list LayerInfo) : Forall P l :=
            match l with
            | [] => Forall_nil P
            | p :: ps => Forall_cons p (LayerInfo_pred_ind p) (all ps)
            end) preds)
  end.
End LayerInfo_pred_ind.

(** ** Demux names and the edge-under-mux test *)

(** [get_demuxes_names_impl(info, res)]: [res] is the vector passed by
    reference; the function returns it after the appends. *)
Fixpoint get_demuxes_names_impl (info : LayerInfo) (res : list string) : list string :=
  match info with
  | mkLayerInfo n _ _ mux preds _ _ =>
      if negb mux then res ++ [n]
      else
        (fix for_preds (ps : list LayerInfo) (res : list string) : list string :=
           match ps with
           | [] => res
           | pred :: ps' => for_preds ps' (get_demuxes_names_impl pred res)
           end) preds res
  end.

Definition get_demuxes_names (info : LayerInfo) : list string :=
  get_demuxes_names_impl info [].

(** The loop of [get_demuxes_names_impl] over a predecessor vector. *)
Fixpoint demux_for_preds (ps : list LayerInfo) (res : list string) : list string :=
  match ps with
  | [] => res
  | pred :: ps' => demux_for_preds ps' (get_demuxes_names_impl pred res)
  end.

(** [is_edge_under_mux(info, edge_name)], with the test of [info.is_mux]
    repeated inside the loop as the source has it. *)
Fixpoint is_edge_under_mux (info : LayerInfo) (edge_name : string) : bool :=
  match info with
  | mkLayerInfo n _ _ mux preds _ _ =>
      if negb mux then String.eqb edge_name n
      else
        (fix for_preds (ps : list LayerInfo) : bool :=
           match ps with
           | [] => false
           | pred :: ps' =>
               if mux then
                 if is_edge_under_mux pred edge_name then true else for_preds ps'
               else
                 if String.eqb edge_name (name pred) then true else for_preds ps'
           end) preds
  end.

(** The number of non-mux layers reachable from [info] through the
    predecessors of mux layers. *)
Fixpoint leaf_count (info : LayerInfo) : nat :=
  match info with
  | mkLayerInfo _ _ _ mux preds _ _ =>
      if mux then
        (fix sum (ps : list LayerInfo) : nat :=
           match ps with
           | [] => 0
           | pred :: ps' => leaf_count pred + sum ps'
           end) preds
      else 1
  end.

(** The names of those layers, depth first and left to right: the wording of
    the specification, with [flat_map] for the concatenation in predecessor
    order. *)
Fixpoint demux_names_spec (info : LayerInfo) : list string :=
  match info with
  | mkLayerInfo n _ _ mux preds _ _ =>
      if mux then
        (fix cat (ps : list LayerInfo) : list string :=
           match ps with
           | [] => []
           | pred :: ps' => demux_names_spec pred ++ cat ps'
           end) preds
      else [n]
  end.

(** The simplified edge-under-mux test of the specification: for each
    predecessor, recurse when the predecessor is mux, otherwise compare its
    name. *)
Fixpoint is_edge_under_mux_simplified (info : LayerInfo) (edge_name : string) : bool :=
  match info with
  | mkLayerInfo n _ _ mux preds _ _ =>
      if negb mux then String.eqb edge_name n
      else
        (fix for_preds (ps : list LayerInfo) : bool :=
           match ps with
           | [] => false
           | pred :: ps' =>
               if is_mux pred then
                 if is_edge_under_mux_simplified pred edge_name then true else for_preds ps'
               else
                 if String.eqb edge_name (name pred) then true else for_preds ps'
           end) preds
  end.

(** ** Machine integers *)

(** [size_t] is 64 bits wide, [uint32_t] and [int] 32 bits; values are
    integers and every operation writes out its wrap-around. *)
Definition SIZE_MAX_plus_1 : Z := (2 ^ 64)%Z.
Definition UINT_MAX_plus_1 : Z := (2 ^ 32)%Z.
Definition INT_MAX_plus_1 : Z := (2 ^ 31)%Z.

Definition to_size_t (z : Z) : Z := (z mod SIZE_MAX_plus_1)%Z.
Definition to_unsigned_int (z : Z) : Z := (z mod UINT_MAX_plus_1)%Z.
Definition to_int (z : Z) : Z :=
  let u := (z mod UINT_MAX_plus_1)%Z in
  if (u <? INT_MAX_plus_1)%Z then u else (u - UINT_MAX_plus_1)%Z.

(** [a + b] on two [size_t]. *)
Definition size_t_add (a b : Z) : Z := to_size_t (a + b)%Z.

(** [init + x] for an [int] and a [uint32_t], stored back into the [int]: the
    sum is taken in [unsigned int] and converted back. *)
Definition int_add_uint32 (init x : Z) : Z :=
  to_int (to_unsigned_int init + to_unsigned_int x)%Z.

(** [std::accumulate(first, last, 0)] over [uint32_t] elements: the literal
    [0] makes the accumulator, and the value returned, an [int]. *)
Definition accumulate_int (sizes : list Z) (init : Z) : Z :=
  fold_left int_add_uint32 sizes init.

(** ** ContextMetadata *)

(** Modelled from the spec: [ConfigBufferInfoMap] is declared in
    [core_op_metadata.hpp]; it maps a config-buffer identifier to the ordered
    sequence of the byte sizes of its writes, each a [uint32_t].  The list
    gives the entries in the order in which the map is iterated. *)
Definition ConfigBufferInfoMap : Type := list (Z * list Z).

(** [m_actions] keeps of each action its type tag. *)
Record ContextMetadata : Type :=
  mkContextMetadata {
      m_actions : list nat;
      m_config_buffers_info : ConfigBufferInfoMap;
      m_boundary_input_layers : list LayerInfo;
      m_boundary_output_layers : list LayerInfo;
      m_inter_context_input_layers : list LayerInfo;
      m_inter_context_output_layers : list LayerInfo;
      m_ddr_input_layers : list LayerInfo;
      m_ddr_output_layers : list LayerInfo
    }.

(** The constructor: actions and config buffers, no edge layers yet. *)
Definition ContextMetadata_new (actions : list nat) (config_buffers_info : ConfigBufferInfoMap)
  : ContextMetadata :=
  mkContextMetadata actions config_buffers_info [] [] [] [] [] [].

Definition add_boundary_layer (c : ContextMetadata) (layer_info : LayerInfo) : ContextMetadata :=
  if direction_eqb HAILO_H2D_STREAM (direction layer_info) then
    mkContextMetadata (m_actions c) (m_config_buffers_info c)
      (m_boundary_input_layers c ++ [layer_info]) (m_boundary_output_layers c)
      (m_inter_context_input_layers c) (m_inter_context_output_layers c)
      (m_ddr_input_layers c) (m_ddr_output_layers c)
  else
    mkContextMetadata (m_actions c) (m_config_buffers_info c)
      (m_boundary_input_layers c) (m_boundary_output_layers c ++ [layer_info])
      (m_inter_context_input_layers c) (m_inter_context_output_layers c)
      (m_ddr_input_layers c) (m_ddr_output_layers c).

Definition add_inter_context_layer (c : ContextMetadata) (layer_info : LayerInfo) : ContextMetadata :=
  if direction_eqb HAILO_H2D_STREAM (direction layer_info) then
    mkContextMetadata (m_actions c) (m_config_buffers_info c)
      (m_boundary_input_layers c) (m_boundary_output_layers c)
      (m_inter_context_input_layers c ++ [layer_info]) (m_inter_context_output_layers c)
      (m_ddr_input_layers c) (m_ddr_output_layers c)
  else
    mkContextMetadata (m_actions c) (m_config_buffers_info c)
      (m_boundary_input_layers c) (m_boundary_output_layers c)
      (m_inter_context_input_layers c) (m_inter_context_output_layers c ++ [layer_info])
      (m_ddr_input_layers c) (m_ddr_output_layers c).

Definition add_ddr_layer (c : ContextMetadata) (layer_info : LayerInfo) : ContextMetadata :=
  if direction_eqb HAILO_H2D_STREAM (direction layer_info) then
    mkContextMetadata (m_actions c) (m_config_buffers_info c)
      (m_boundary_input_layers c) (m_boundary_output_layers c)
      (m_inter_context_input_layers c) (m_inter_context_output_layers c)
      (m_ddr_input_layers c ++ [layer_info]) (m_ddr_output_layers c)
  else
    mkContextMetadata (m_actions c) (m_config_buffers_info c)
      (m_boundary_input_layers c) (m_boundary_output_layers c)
      (m_inter_context_input_layers c) (m_inter_context_output_layers c)
      (m_ddr_input_layers c) (m_ddr_output_layers c ++ [layer_info]).

Section TransferSize.
Local Open Scope expected_scope.
Local Open Scope Z_scope.

(** [LayerInfoUtils::get_transfer_size], the per-layer byte size; it may
    fail. *)
Variable get_transfer_size : LayerInfo -> Expected Z.

(** The loop of [get_layers_transfer_size], entered with the running
    total. *)
Fixpoint layers_transfer_size_from (layer_infos : list LayerInfo) (total_transfer_size : Z)
  : Expected Z :=
  match layer_infos with
  | [] => Ok total_transfer_size
  | layer_info :: rest =>
      let? transfer_size := get_transfer_size layer_info in
      layers_transfer_size_from rest (size_t_add total_transfer_size transfer_size)
  end.

Definition get_layers_transfer_size (layer_infos : list LayerInfo) : Expected Z :=
  layers_transfer_size_from layer_infos 0.

(** The loop over [m_config_buffers_info]: each buffer's sizes are summed
    by [std::accumulate] into an [int], which is then added to the
    [size_t] total. *)
Definition config_buffers_size (config_buffers_info : ConfigBufferInfoMap) (total : Z) : Z :=
  fold_left
    (fun total config_buffer_sizes =>
       size_t_add total (to_size_t (accumulate_int (snd config_buffer_sizes) 0)))
    config_buffers_info total.

Definition get_context_transfer_size (c : ContextMetadata) : Expected Z :=
  let total_transfer_size := config_buffers_size (m_config_buffers_info c) 0 in
  let? boundary_input := get_layers_transfer_size (m_boundary_input_layers c) in
  let? boundary_output := get_layers_transfer_size (m_boundary_output_layers c) in
  let? ddr_input := get_layers_transfer_size (m_ddr_input_layers c) in
  let? ddr_output := get_layers_transfer_size (m_ddr_output_layers c) in
  let? inter_context_input := get_layers_transfer_size (m_inter_context_input_layers c) in
  let? inter_context_output := get_layers_transfer_size (m_inter_context_output_layers c) in
  Ok (size_t_add total_transfer_size
        (size_t_add
           (size_t_add
              (size_t_add
                 (size_t_add (size_t_add boundary_input boundary_output) ddr_input)
                 ddr_output)
              inter_context_input)
           inter_context_output)).

(** The loop of [get_total_transfer_size] over the dynamic contexts. *)
Fixpoint total_transfer_size_from (contexts : list ContextMetadata) (total_transfer_size : Z)
  : Expected Z :=
  match contexts with
  | [] => Ok total_transfer_size
  | dynamic_context :: rest =>
      let? context_size := get_context_transfer_size dynamic_context in
      total_transfer_size_from rest (size_t_add total_transfer_size context_size)
  end.
End TransferSize.

(** ** Virtual-stream descriptors *)

(** The fields of [hailo_vstream_info_t] that tell descriptors apart here;
    [vs_name] is the [name] character array read as a string. *)
Record hailo_vstream_info_t : Type :=
  mkVStreamInfo {
      vs_name : string;
      vs_network_name : string;
      vs_direction : hailo_stream_direction_t
    }.

(** Modelled from the spec: [LayerInfoUtils::vstream_info_already_in_vector]
    is defined outside [core_op_metadata.cpp]; the conversion deduplicates by
    vstream name, so the helper tells whether a descriptor of that name is in
    the vector. *)
Definition vstream_info_already_in_vector (vec : list hailo_vstream_info_t) (n : string) : bool :=
  existsb (fun info => String.eqb n (vs_name info)) vec.

(** ** std::sort with a comparator that writes to captured state *)

(** [std::sort] belongs to the C++ library.  The model is libstdc++'s
    [__insertion_sort], which is all that [std::sort] runs on a range of at
    most sixteen elements; the comparator is a function of the captured state
    and returns the state it leaves. *)
Section StdSort.
Variables A S : Type.
Variable comp : A -> A -> S -> bool * S.

(** [__unguarded_linear_insert]: [val] moves left past each element it
    compares less than.  [before] is the part of the range to the left of
    the hole, nearest element first; [after] the elements already shifted
    to its right. *)
Fixpoint unguarded_linear_insert (val : A) (before after : list A) (st : S) : list A * S :=
  match before with
  | [] => (val :: after, st)
  | next :: before' =>
      let (less, st') := comp val next st in
      if less then unguarded_linear_insert val before' (next :: after) st'
      else (rev before ++ val :: after, st')
  end.

(** The loop of [__insertion_sort]: [sorted] is the range before the
    iterator [i], [rest] the range from [i] on. *)
Fixpoint insertion_sort_from (sorted rest : list A) (st : S) : list A * S :=
  match rest with
  | [] => (sorted, st)
  | x :: rest' =>
      match sorted with
      | [] => insertion_sort_from [x] rest' st
      | first :: _ =>
          let (less, st') := comp x first st in
          if less then insertion_sort_from (x :: sorted) rest' st'
          else
            let (sorted', st'') := unguarded_linear_insert x (rev sorted) [] st' in
            insertion_sort_from sorted' rest' st''
      end
  end.

Definition std_sort (v : list A) (st : S) : list A * S :=
  match v with
  | [] => ([], st)
  | first :: rest => insertion_sort_from [first] rest st
  end.
End StdSort.
Arguments unguarded_linear_insert {A S} comp val before after st.
Arguments insertion_sort_from {A S} comp sorted rest st.
Arguments std_sort {A S} comp v st.

(** [std::find(names.begin(), names.end(), n) - names.begin()]: the position
    of the first occurrence, or [names.size()] for the end iterator. *)
Fixpoint std_find (names : list string) (n : string) : nat :=
  match names with
  | [] => 0
  | x :: rest => if String.eqb x n then 0 else S (std_find rest n)
  end.

(** ** CoreOpMetadata *)

Record SupportedFeatures : Type :=
  mkSupportedFeatures {
      hailo_net_flow : bool
    }.

(** The members set by the constructor and read by the functions below
    ([m_config_channels_info] is only handed out by its accessor). *)
Record CoreOpMetadata : Type :=
  mkCoreOpMetadata {
      m_preliminary_context : ContextMetadata;
      m_dynamic_contexts : list ContextMetadata;
      m_core_op_name : string;
      m_sorted_output_names : list string;
      m_supported_features : SupportedFeatures;
      m_sorted_network_names : list string;
      m_output_vstreams_infos : list hailo_vstream_info_t
    }.

(** [CHECK_AS_EXPECTED(cond, status, ...)] followed by [return res]. *)
Definition check_as_expected {T : Type} (cond : bool) (status : hailo_status) (res : T)
  : Expected T :=
  if cond then Ok res else Unexpected status.

(** [get_input_layer_infos()], the two nested loops with [emplace_back]. *)
Definition get_input_layer_infos (m : CoreOpMetadata) : list LayerInfo :=
  fold_left
    (fun res context =>
       fold_left (fun res layer_info => res ++ [layer_info])
         (m_boundary_input_layers context) res)
    (m_dynamic_contexts m) [].

Definition get_output_layer_infos (m : CoreOpMetadata) : list LayerInfo :=
  fold_left
    (fun res context =>
       fold_left (fun res layer_info => res ++ [layer_info])
         (m_boundary_output_layers context) res)
    (m_dynamic_contexts m) [].

Definition get_all_layer_infos (m : CoreOpMetadata) : list LayerInfo :=
  get_input_layer_infos m ++ get_output_layer_infos m.

Definition get_layer_info_by_stream_name (m : CoreOpMetadata) (stream_name : string)
  : Expected LayerInfo :=
  match find (fun layer_info => String.eqb (name layer_info) stream_name)
          (get_all_layer_infos m) with
  | Some layer_info => Ok layer_info
  | None => Unexpected HAILO_NOT_FOUND
  end.

Definition get_contexts_count (non_dynamic_contexts : nat) (m : CoreOpMetadata) : nat :=
  List.length (m_dynamic_contexts m) + non_dynamic_contexts.

Definition get_total_transfer_size (get_transfer_size : LayerInfo -> Expected Z)
    (m : CoreOpMetadata) : Expected Z :=
  total_transfer_size_from get_transfer_size (m_dynamic_contexts m) 0%Z.

Section NetworkQueries.
Local Open Scope expected_scope.

(** [HailoRTDefaults::get_network_name], which [default_network_name()]
    applies to [m_core_op_name]. *)
Variable get_network_name : string -> string.

Definition default_network_name (m : CoreOpMetadata) : string :=
  get_network_name (m_core_op_name m).

(** The condition under which a boundary layer is kept. *)
Definition network_matches (m : CoreOpMetadata) (layer_info : LayerInfo) (net : string) : bool :=
  String.eqb (network_name layer_info) net
  || (Nat.eqb (String.length net) 0)
  || String.eqb net (default_network_name m).

(** The overloads [get_input_layer_infos(network_name)] and
    [get_output_layer_infos(network_name)]. *)
Definition get_input_layer_infos_of (m : CoreOpMetadata) (net : string)
  : Expected (list LayerInfo) :=
  let res :=
    fold_left
      (fun res context =>
         fold_left
           (fun res layer_info =>
              if network_matches m layer_info net then res ++ [layer_info] else res)
           (m_boundary_input_layers context) res)
      (m_dynamic_contexts m) [] in
  check_as_expected (Nat.ltb 0 (List.length res)) HAILO_NOT_FOUND res.

Definition get_output_layer_infos_of (m : CoreOpMetadata) (net : string)
  : Expected (list LayerInfo) :=
  let res :=
    fold_left
      (fun res context =>
         fold_left
           (fun res layer_info =>
              if network_matches m layer_info net then res ++ [layer_info] else res)
           (m_boundary_output_layers context) res)
      (m_dynamic_contexts m) [] in
  check_as_expected (Nat.ltb 0 (List.length res)) HAILO_NOT_FOUND res.

(** [LayerInfoUtils::get_vstream_infos_from_layer_info], the per-layer
    conversion to one or more descriptors. *)
Variable get_vstream_infos_from_layer_info : LayerInfo -> list hailo_vstream_info_t.

Definition convert_layer_infos_to_vstream_infos (layer_infos : list LayerInfo)
  : list hailo_vstream_info_t :=
  fold_left
    (fun res layer_info =>
       fold_left
         (fun res vstream_info =>
            if negb (vstream_info_already_in_vector res (vs_name vstream_info))
            then res ++ [vstream_info]
            else res)
         (get_vstream_infos_from_layer_info layer_info) res)
    layer_infos [].

Definition get_input_vstream_infos (m : CoreOpMetadata) (net : string)
  : Expected (list hailo_vstream_info_t) :=
  let? input_layer_infos := get_input_layer_infos_of m net in
  Ok (convert_layer_infos_to_vstream_infos input_layer_infos).

(** The comparator handed to [std::sort]; [status] is the captured
    variable. *)
Definition output_order_comp (m : CoreOpMetadata) (info1 info2 : hailo_vstream_info_t)
    (status : hailo_status) : bool * hailo_status :=
  let index1 := std_find (m_sorted_output_names m) (vs_name info1) in
  let index2 := std_find (m_sorted_output_names m) (vs_name info2) in
  if Nat.eqb (List.length (m_sorted_output_names m)) index1 then (false, HAILO_INTERNAL_FAILURE)
  else if Nat.eqb (List.length (m_sorted_output_names m)) index2 then (false, HAILO_INTERNAL_FAILURE)
  else (Nat.ltb index1 index2, status).

(** [CHECK_SUCCESS_AS_EXPECTED(status)] followed by [return res]. *)
Definition check_success_as_expected {T : Type} (status : hailo_status) (res : T)
  : Expected T :=
  match status with
  | HAILO_SUCCESS => Ok res
  | _ => Unexpected status
  end.

Definition get_output_vstream_infos (m : CoreOpMetadata) (net : string)
  : Expected (list hailo_vstream_info_t) :=
  if hailo_net_flow (m_supported_features m) then Ok (m_output_vstreams_infos m)
  else
    let? output_layer_infos := get_output_layer_infos_of m net in
    let res := convert_layer_infos_to_vstream_infos output_layer_infos in
    let (res, status) := std_sort (output_order_comp m) res HAILO_SUCCESS in
    check_success_as_expected status res.
End NetworkQueries.

(** ** Calls that can leave defined behaviour *)

(** What a call does: it returns its result, or it indexes a vector past its
    end, or it stops at a failed [assert] (with [NDEBUG] the [assert] is
    compiled out and the statement after it has no defined behaviour). *)
Inductive Outcome (T : Type) : Type :=
| Returns (result : T)
| OutOfBounds
| AssertionFailed.
Arguments Returns {T} result.
Arguments OutOfBounds {T}.
Arguments AssertionFailed {T}.

Definition bindO {A B : Type} (o : Outcome A) (k : A -> Outcome B) : Outcome B :=
  match o with
  | Returns a => k a
  | OutOfBounds => OutOfBounds
  | AssertionFailed => AssertionFailed
  end.

(** [v[0]] on a [std::vector]. *)
Definition vector_front {T : Type} (v : list T) : Outcome T :=
  match nth_error v 0 with
  | Some x => Returns x
  | None => OutOfBounds
  end.

(** ** Stream names and virtual-stream names *)

(** The loop of [get_vstream_names_from_stream_name] over the layers. *)
Fixpoint vstream_names_scan (layers : list LayerInfo) (stream_name : string)
  : Outcome (Expected (list string)) :=
  match layers with
  | [] => Returns (Unexpected HAILO_NOT_FOUND)
  | layer_info :: rest =>
      if String.eqb stream_name (name layer_info) then
        if is_defused_nms layer_info then
          bindO (vector_front (fused_nms_layer layer_info))
            (fun fused => Returns (Ok [name fused]))
        else if is_mux layer_info then Returns (Ok (get_demuxes_names layer_info))
        else Returns (Ok [name layer_info])
      else vstream_names_scan rest stream_name
  end.

Definition get_vstream_names_from_stream_name (m : CoreOpMetadata) (stream_name : string)
  : Outcome (Expected (list string)) :=
  vstream_names_scan (get_all_layer_infos m) stream_name.

(** The loop of [get_stream_names_from_vstream_name]; [results] is the vector
    being filled. *)
Fixpoint stream_names_scan (net_flow : bool) (layers : list LayerInfo) (vstream_name : string)
    (results : list string) : Outcome (list string) :=
  match layers with
  | [] => Returns results
  | layer_info :: rest =>
      if is_mux layer_info then
        if is_edge_under_mux layer_info vstream_name
        then stream_names_scan net_flow rest vstream_name (results ++ [name layer_info])
        else stream_names_scan net_flow rest vstream_name results
      else if is_defused_nms layer_info then
        bindO (vector_front (fused_nms_layer layer_info))
          (fun fused =>
             if String.eqb vstream_name (name fused)
             then stream_names_scan net_flow rest vstream_name (results ++ [name layer_info])
             else stream_names_scan net_flow rest vstream_name results)
      else if net_flow && direction_eqb (direction layer_info) HAILO_D2H_STREAM then
        stream_names_scan net_flow rest vstream_name (results ++ [name layer_info])
      else if String.eqb vstream_name (name layer_info) then
        stream_names_scan net_flow rest vstream_name (results ++ [name layer_info])
      else stream_names_scan net_flow rest vstream_name results
  end.

Definition get_stream_names_from_vstream_name (m : CoreOpMetadata) (vstream_name : string)
  : Outcome (Expected (list string)) :=
  bindO
    (stream_names_scan (hailo_net_flow (m_supported_features m)) (get_all_layer_infos m)
       vstream_name [])
    (fun results =>
       Returns (check_as_expected (Nat.ltb 0 (List.length results)) HAILO_NOT_FOUND results)).

(** Every defused-NMS layer carries its fused layer. *)
Definition fused_layer_present (layer_info : LayerInfo) : Prop :=
  is_defused_nms layer_info = true -> fused_nms_layer layer_info <> [].

(** Whether a layer puts its name into the result of
    [get_stream_names_from_vstream_name]: the four branches of the loop
    body. *)
Definition contributes (net_flow : bool) (vstream_name : string) (layer_info : LayerInfo) : bool :=
  if is_mux layer_info then is_edge_under_mux layer_info vstream_name
  else if is_defused_nms layer_info then
    match fused_nms_layer layer_info with
    | fused :: _ => String.eqb vstream_name (name fused)
    | [] => false
    end
  else if net_flow && direction_eqb (direction layer_info) HAILO_D2H_STREAM then true
  else String.eqb vstream_name (name layer_info).

(** ** CoreOpMetadataPerArch *)

(** Modelled from the spec: the member [m_metadata_per_arch] is declared in
    [core_op_metadata.hpp]; it is the mapping from a 32-bit layout bitmap to a
    CoreOpMetadata variant, a [std::map], whose entries are kept, and
    iterated from [begin()], in increasing key order. *)
Definition MetadataPerArch : Type := list (Z * CoreOpMetadata).

(** [m[key] = value]: insert at the key's place, or overwrite. *)
Fixpoint map_assign (m : MetadataPerArch) (key : Z) (value : CoreOpMetadata) : MetadataPerArch :=
  match m with
  | [] => [(key, value)]
  | (k, v) :: rest =>
      if (key <? k)%Z then (key, value) :: m
      else if (key =? k)%Z then (key, value) :: rest
      else (k, v) :: map_assign rest key value
  end.

(** [contains(m, key)] and the read [m[key]] that follows it. *)
Fixpoint map_lookup (m : MetadataPerArch) (key : Z) : option CoreOpMetadata :=
  match m with
  | [] => None
  | (k, v) :: rest => if (key =? k)%Z then Some v else map_lookup rest key
  end.

Definition add_metadata (m : MetadataPerArch) (metadata : CoreOpMetadata)
    (partial_clusters_layout_bitmap : Z) : MetadataPerArch :=
  map_assign m partial_clusters_layout_bitmap metadata.

Section PerArch.
(** The sentinel bitmap, a constant of the header. *)
Variable PARTIAL_CLUSTERS_LAYOUT_IGNORE : Z.

Definition get_metadata (m : MetadataPerArch) (partial_clusters_layout_bitmap : Z)
  : Outcome (Expected CoreOpMetadata) :=
  if (PARTIAL_CLUSTERS_LAYOUT_IGNORE =? partial_clusters_layout_bitmap)%Z then
    match m with
    | [] => AssertionFailed
    | (_, result) :: _ => Returns (Ok result)
    end
  else
    match map_lookup m partial_clusters_layout_bitmap with
    | Some result => Returns (Ok result)
    | None => Returns (Unexpected HAILO_INTERNAL_FAILURE)
    end.
End PerArch.

(** The map after a sequence of [add_metadata] calls, first call first. *)
Definition add_all (calls : list (CoreOpMetadata * Z)) (m : MetadataPerArch) : MetadataPerArch :=
  fold_left (fun m call => add_metadata m (fst call) (snd call)) calls m.

(** The keys of a [std::map] are strictly increasing. *)
Fixpoint keys_increasing (m : MetadataPerArch) : Prop :=
  match m with
  | [] => True
  | (k, _) :: rest =>
      match rest with
      | [] => True
      | (k', _) :: _ => (k < k')%Z /\ keys_increasing rest
      end
  end.

(** ** The filtered layer queries, in the words of the specification *)

(** The layers a request for [net] selects from [all]: every layer when [net]
    is empty or is the default network name, otherwise the layers of the
    network [net]. *)
Definition requested_layers (default_name net : string) (all : list LayerInfo) : list LayerInfo :=
  if String.eqb net "" || String.eqb net default_name then all
  else filter (fun layer_info => String.eqb (network_name layer_info) net) all.

(** NotFound when nothing was selected. *)
Definition not_found_if_empty {T : Type} (res : list T) : Expected (list T) :=
  match res with
  | [] => Unexpected HAILO_NOT_FOUND
  | _ :: _ => Ok res
  end.

(** ** Deduplication by name, in the words of the specification *)

(** The descriptors of [l] whose name is not in [seen] and has not occurred
    earlier in [l]: of each name only the first occurrence is kept. *)
Fixpoint first_occurrences (seen : list string) (l : list hailo_vstream_info_t)
  : list hailo_vstream_info_t :=
  match l with
  | [] => []
  | info :: rest =>
      if existsb (String.eqb (vs_name info)) seen then first_occurrences seen rest
      else info :: first_occurrences (seen ++ [vs_name info]) rest
  end.

(** The descriptors of [l] that carry the name [n]. *)
Definition named (n : string) (l : list hailo_vstream_info_t) : list hailo_vstream_info_t :=
  filter (fun info => String.eqb (vs_name info) n) l.

(** ** Net-flow contributions, as a statement about every output layer *)

(** With [hailo_net_flow] set, every device-to-host boundary layer has its
    name in the result of [get_stream_names_from_vstream_name], whatever the
    requested name. *)
Definition every_d2h_layer_contributes : Prop :=
  forall (m : CoreOpMetadata) (vstream_name : string) (layer_info : LayerInfo),
    hailo_net_flow (m_supported_features m) = true ->
    In layer_info (get_all_layer_infos m) ->
    direction layer_info = HAILO_D2H_STREAM ->
    exists results,
      get_stream_names_from_vstream_name m vstream_name = Returns (Ok results)
      /\ In (name layer_info) results.

(** A model with one dynamic context and no config buffers, holding the given
    boundary layers. *)
Definition single_context_model (net_flow : bool) (sorted_output_names : list string)
    (layers : list LayerInfo) : CoreOpMetadata :=
  mkCoreOpMetadata (ContextMetadata_new [] [])
    [fold_left add_boundary_layer layers (ContextMetadata_new [] [])]
    "core_op" sorted_output_names (mkSupportedFeatures net_flow) [] [].

(** ** Per-arch lookup, in terms of the calls that filled the map *)

(** The variant that the latest [add_metadata] call for [key] stored. *)
Fixpoint last_added (calls : list (CoreOpMetadata * Z)) (key : Z) : option CoreOpMetadata :=
  match calls with
  | [] => None
  | (metadata, k) :: rest =>
      match last_added rest key with
      | Some later => Some later
      | None => if (key =? k)%Z then Some metadata else None
      end
  end.

(** A variant with nothing but a name. *)
Definition named_variant (core_op_name : string) : CoreOpMetadata :=
  mkCoreOpMetadata (ContextMetadata_new [] []) [] core_op_name []
    (mkSupportedFeatures false) [] [].

(** The sentinel lookup returns the variant of the first [add_metadata]
    call. *)
Definition sentinel_returns_first_inserted : Prop :=
  forall (ignore : Z) (first : CoreOpMetadata * Z) (later : list (CoreOpMetadata * Z)),
    get_metadata ignore (add_all (first :: later) []) ignore = Returns (Ok (fst first)).

(** The sentinel lookup in an empty map returns an internal-failure error. *)
Definition sentinel_on_empty_map_is_an_error : Prop :=
  forall ignore : Z,
    get_metadata ignore [] ignore = Returns (Unexpected HAILO_INTERNAL_FAILURE).

(** A lookup of a bitmap that is a key returns the variant stored under it. *)
Definition every_key_returns_its_variant : Prop :=
  forall (ignore bitmap : Z) (calls : list (CoreOpMetadata * Z)) (stored : CoreOpMetadata),
    map_lookup (add_all calls []) bitmap = Some stored ->
    get_metadata ignore (add_all calls []) bitmap = Returns (Ok stored).

(** ** Sample collaborators for the concrete evaluations *)

(** A per-layer conversion in the manner of
    [LayerInfoUtils::get_vstream_infos_from_layer_info]: a defused-NMS layer
    yields the descriptor of its fused layer, a mux layer one descriptor per
    demux name, any other layer its own descriptor. *)
Definition sample_vstream_infos (layer_info : LayerInfo) : list hailo_vstream_info_t :=
  if is_defused_nms layer_info then
    map (fun fused => mkVStreamInfo (name fused) (network_name fused) (direction fused))
      (firstn 1 (fused_nms_layer layer_info))
  else if is_mux layer_info then
    map (fun n => mkVStreamInfo n (network_name layer_info) (direction layer_info))
      (get_demuxes_names layer_info)
  else [mkVStreamInfo (name layer_info) (network_name layer_info) (direction layer_info)].

(** A default network name in the manner of
    [HailoRTDefaults::get_network_name]. *)
Definition sample_network_name (core_op_name : string) : string :=
  String.append core_op_name "/default".

(** Whether the name of a descriptor is missing from the sorted output
    names. *)
Definition name_absent (m : CoreOpMetadata) (info : hailo_vstream_info_t) : bool :=
  Nat.eqb (List.length (m_sorted_output_names m))
    (std_find (m_sorted_output_names m) (vs_name info)).

(** ** Transfer sizes as plain sums *)

(** The sum of the per-layer transfer sizes over unbounded integers, or the
    failure of the first layer, in scan order, on which the size function
    fails. *)
Fixpoint sum_transfer_sizes (get_transfer_size : LayerInfo -> Expected Z)
    (layer_infos : list LayerInfo) : Expected Z :=
  match layer_infos with
  | [] => Ok 0%Z
  | layer_info :: rest =>
      bindE (get_transfer_size layer_info)
        (fun size =>
           bindE (sum_transfer_sizes get_transfer_size rest)
             (fun sizes => Ok (size + sizes)%Z))
  end.

(** The six edge-layer lists in the order in which
    [get_context_transfer_size] goes through them. *)
Definition all_edge_layers (c : ContextMetadata) : list LayerInfo :=
  m_boundary_input_layers c ++ m_boundary_output_layers c
  ++ m_ddr_input_layers c ++ m_ddr_output_layers c
  ++ m_inter_context_input_layers c ++ m_inter_context_output_layers c.

(** All byte sizes of all config buffers of a context, flattened. *)
Definition all_config_buffer_sizes (c : ContextMetadata) : list Z :=
  flat_map snd (m_config_buffers_info c).

Definition Zsum (l : list Z) : Z := fold_right Z.add 0%Z l.

(** The transfer size of a context as the specification words it. *)
Definition context_transfer_size_spec (get_transfer_size : LayerInfo -> Expected Z)
    (c : ContextMetadata) : Expected Z :=
  bindE (sum_transfer_sizes get_transfer_size (all_edge_layers c))
    (fun layers => Ok (Zsum (all_config_buffer_sizes c) + layers)%Z).

(** The total over the dynamic contexts as the specification words it. *)
Fixpoint total_transfer_size_spec (get_transfer_size : LayerInfo -> Expected Z)
    (contexts : list ContextMetadata) : Expected Z :=
  match contexts with
  | [] => Ok 0%Z
  | c :: rest =>
      bindE (context_transfer_size_spec get_transfer_size c)
        (fun size =>
           bindE (total_transfer_size_spec get_transfer_size rest)
             (fun sizes => Ok (size + sizes)%Z))
  end.

(** [Expected<size_t>] holding the value reduced to the width of [size_t]. *)
Definition as_size_t (e : Expected Z) : Expected Z :=
  bindE e (fun z => Ok (to_size_t z)).

(** The sizes of one config buffer are [uint32_t] values whose sum an [int]
    holds. *)
Definition buffer_fits_int (sizes : list Z) : Prop :=
  Forall (fun size => (0 <= size < UINT_MAX_plus_1)%Z) sizes
  /\ (Zsum sizes < INT_MAX_plus_1)%Z.

Definition config_buffers_fit_int (c : ContextMetadata) : Prop :=
  Forall (fun buffer => buffer_fits_int (snd buffer)) (m_config_buffers_info c).

(** A size function that fails on mux layers only. *)
Definition sample_transfer_size (layer_info : LayerInfo) : Expected Z :=
  if is_mux layer_info then Unexpected HAILO_INVALID_ARGUMENT else Ok 4096%Z.

(** A model whose only dynamic context has the given config buffers and no
    edge layer. *)
Definition config_only_model (config_buffers_info : ConfigBufferInfoMap) : CoreOpMetadata :=
  mkCoreOpMetadata (ContextMetadata_new [] []) [ContextMetadata_new [] config_buffers_info]
    "core_op" [] (mkSupportedFeatures false) [] [].

(** A model with a defused-NMS pair, a mux layer and a plain layer on the
    output side and one input layer. *)
Definition sample_model (net_flow : bool) : CoreOpMetadata :=
  single_context_model net_flow ["nms"; "a"; "c"; "out1"]
    [leaf_layer "in0" HAILO_H2D_STREAM "net0";
     defused_layer "nms_frag0" HAILO_D2H_STREAM "net0" [leaf_layer "nms" HAILO_D2H_STREAM "net0"];
     defused_layer "nms_frag1" HAILO_D2H_STREAM "net0" [leaf_layer "nms" HAILO_D2H_STREAM "net0"];
     mux_layer "mux0" HAILO_D2H_STREAM "net0"
       [leaf_layer "a" HAILO_D2H_STREAM "net0";
        mux_layer "B" HAILO_D2H_STREAM "net0" [leaf_layer "c" HAILO_D2H_STREAM "net0"]];
     leaf_layer "out1" HAILO_D2H_STREAM "net0"].

(** The position of a descriptor's name in the sorted output names, and the
    order it induces. *)
Definition output_index (m : CoreOpMetadata) (info : hailo_vstream_info_t) : nat :=
  std_find (m_sorted_output_names m) (vs_name info).

Definition by_output_index (m : CoreOpMetadata) (a b : hailo_vstream_info_t) : Prop :=
  output_index m a <= output_index m b.

(** ** The remaining queries of ContextMetadata and CoreOpMetadata *)

(** [get_actions_of_type(action_types)]: [action_types] is the [std::set] of
    requested type tags, given by its elements. *)
Definition get_actions_of_type (c : ContextMetadata) (action_types : list nat) : list nat :=
  fold_left
    (fun filtered_actions action =>
       if existsb (Nat.eqb action) action_types
       then filtered_actions ++ [action]
       else filtered_actions)
    (m_actions c) [].

(** The overload [get_all_layer_infos(network_name)]. *)
Definition get_all_layer_infos_of (get_network_name : string -> string) (m : CoreOpMetadata)
    (net : string) : Expected (list LayerInfo) :=
  bindE (get_input_layer_infos_of get_network_name m net)
    (fun input_layer_infos =>
       bindE (get_output_layer_infos_of get_network_name m net)
         (fun output_layer_infos => Ok (input_layer_infos ++ output_layer_infos))).

(** The fields of [hailo_stream_info_t] that tell descriptors apart here. *)
Record hailo_stream_info_t : Type :=
  mkStreamInfo {
      si_name : string;
      si_direction : hailo_stream_direction_t
    }.

Section StreamInfos.
Variable get_network_name : string -> string.

(** [LayerInfoUtils::get_stream_info_from_layer_info], the per-layer
    conversion to a stream descriptor. *)
Variable get_stream_info_from_layer_info : LayerInfo -> hailo_stream_info_t.

Definition convert_layer_infos_to_stream_infos (layer_infos : list LayerInfo)
  : list hailo_stream_info_t :=
  fold_left (fun res layer_info => res ++ [get_stream_info_from_layer_info layer_info])
    layer_infos [].

Definition get_input_stream_infos (m : CoreOpMetadata) (net : string)
  : Expected (list hailo_stream_info_t) :=
  bindE (get_input_layer_infos_of get_network_name m net)
    (fun input_layer_infos => Ok (convert_layer_infos_to_stream_infos input_layer_infos)).

Definition get_output_stream_infos (m : CoreOpMetadata) (net : string)
  : Expected (list hailo_stream_info_t) :=
  bindE (get_output_layer_infos_of get_network_name m net)
    (fun output_layer_infos => Ok (convert_layer_infos_to_stream_infos output_layer_infos)).

Definition get_all_stream_infos (m : CoreOpMetadata) (net : string)
  : Expected (list hailo_stream_info_t) :=
  bindE (get_input_stream_infos m net)
    (fun input_stream_infos =>
       bindE (get_output_stream_infos m net)
         (fun output_stream_infos => Ok (input_stream_infos ++ output_stream_infos))).
End StreamInfos.

Definition get_all_vstream_infos (get_network_name : string -> string)
    (get_vstream_infos_from_layer_info : LayerInfo -> list hailo_vstream_info_t)
    (m : CoreOpMetadata) (net : string) : Expected (list hailo_vstream_info_t) :=
  bindE (get_input_vstream_infos get_network_name get_vstream_infos_from_layer_info m net)
    (fun input_vstream_infos =>
       bindE (get_output_vstream_infos get_network_name get_vstream_infos_from_layer_info m net)
         (fun output_vstream_infos => Ok (input_vstream_infos ++ output_vstream_infos))).

(** ** The network-info table *)

(** [hailo_network_info_t]: its one member is the character array
    [name[HAILO_MAX_NETWORK_NAME_SIZE]]. *)
Record hailo_network_info_t : Type :=
  mkNetworkInfo {
      ni_name : list ascii
    }.

(** [s.c_str()]: the characters of [s] and the terminating NUL. *)
Definition c_str (s : string) : list ascii :=
  list_ascii_of_string s ++ [zero].

(** [memcpy(dst, src, n)] on character arrays, for [n] within both. *)
Definition memcpy (dst src : list ascii) (n : nat) : list ascii :=
  firstn n src ++ skipn n dst.

(** A character array read as a C string: the characters before the first
    NUL. *)
Fixpoint read_c_string (chars : list ascii) : string :=
  match chars with
  | [] => EmptyString
  | ch :: rest =>
      if Ascii.eqb ch zero then EmptyString else String ch (read_c_string rest)
  end.

Section NetworkInfos.
(** The array size, a constant of the public header. *)
Variable HAILO_MAX_NETWORK_NAME_SIZE : nat.

(** The loop of [get_network_infos]; [network_infos] is the vector being
    filled, each element value-initialised before the [memcpy]. *)
Fixpoint network_infos_from (names : list string) (network_infos : list hailo_network_info_t)
  : Expected (list hailo_network_info_t) :=
  match names with
  | [] => Ok network_infos
  | network_name :: rest =>
      if Nat.leb (String.length network_name + 1) HAILO_MAX_NETWORK_NAME_SIZE then
        let network_info :=
          mkNetworkInfo
            (memcpy (repeat zero HAILO_MAX_NETWORK_NAME_SIZE) (c_str network_name)
               (String.length network_name + 1)) in
        network_infos_from rest (network_infos ++ [network_info])
      else Unexpected HAILO_INTERNAL_FAILURE
  end.

Definition get_network_infos (m : CoreOpMetadata) : Expected (list hailo_network_info_t) :=
  network_infos_from (m_sorted_network_names m) [].
End NetworkInfos.

(** No character of the string is NUL. *)
Definition no_nul (s : string) : Prop := ~ In zero (list_ascii_of_string s).

(** What [get_vstream_names_from_stream_name] answers once the layer is
    found. *)
Definition vstream_names_of_layer (layer_info : LayerInfo) : Outcome (Expected (list string)) :=
  if is_defused_nms layer_info then
    bindO (vector_front (fused_nms_layer layer_info)) (fun fused => Returns (Ok [name fused]))
  else if is_mux layer_info then Returns (Ok (get_demuxes_names layer_info))
  else Returns (Ok [name layer_info]).

(** The table entry that [get_network_infos] builds for a name: the
    value-initialised array after the [memcpy]. *)
Definition network_info_of (max_size : nat) (network_name : string) : hailo_network_info_t :=
  mkNetworkInfo
    (memcpy (repeat zero max_size) (c_str network_name) (String.length network_name + 1)).

(** The boundary layers that a request for [net] selects, input side and
    output side. *)
Definition requested_input_layers (get_network_name : string -> string) (m : CoreOpMetadata)
    (net : string) : list LayerInfo :=
  requested_layers (default_network_name get_network_name m) net
    (flat_map m_boundary_input_layers (m_dynamic_contexts m)).

Definition requested_output_layers (get_network_name : string -> string) (m : CoreOpMetadata)
    (net : string) : list LayerInfo :=
  requested_layers (default_network_name get_network_name m) net
    (flat_map m_boundary_output_layers (m_dynamic_contexts m)).

(** The failure that a fallible size computation ends in, if any. *)
Definition failure_of (e : Expected Z) : option hailo_status :=
  match e with
  | Ok _ => None
  | Unexpected status => Some status
  end.

(** ** Further sample data *)

(** A per-layer conversion to a stream descriptor. *)
Definition sample_stream_info (layer_info : LayerInfo) : hailo_stream_info_t :=
  mkStreamInfo (name layer_info) (direction layer_info).

(** The sample model with a config buffer written twice and a preliminary
    context of its own. *)
Definition sample_sized_model : CoreOpMetadata :=
  mkCoreOpMetadata (ContextMetadata_new [] [(0%Z, [4096%Z])])
    [add_ddr_layer
       (add_boundary_layer (ContextMetadata_new [1; 2; 1] [(0%Z, [16%Z; 32%Z])])
          (leaf_layer "in0" HAILO_H2D_STREAM "net0"))
       (leaf_layer "ddr0" HAILO_D2H_STREAM "net0")]
    "core_op" ["out0"] (mkSupportedFeatures false) ["net0"] [].

(** * Properties *)

(** ** The predecessor tree *)

Lemma get_demuxes_names_impl_unfold (info : LayerInfo) (res : list string) :
  get_demuxes_names_impl info res =
  if negb (is_mux info) then res ++ [name info]
  else demux_for_preds (predecessor info) res.
Proof.
  destruct info as [n d net mux preds defused fused]; simpl.
  destruct mux; simpl; [|reflexivity].
  revert res. induction preds as [|p ps IH]; intros res; simpl; [reflexivity|].
  apply IH.
Qed.

Lemma demux_for_preds_app (ps : list LayerInfo) :
  Forall (fun p => forall res, get_demuxes_names_impl p res = res ++ get_demuxes_names p) ps ->
  forall res, demux_for_preds ps res = res ++ flat_map get_demuxes_names ps.
Proof.
  induction 1 as [|p ps Hp _ IH]; intros res; simpl.
  - now rewrite app_nil_r.
  - rewrite IH, Hp. now rewrite app_assoc.
Qed.

(** Appending to a vector that already has elements leaves them in place. *)
Lemma get_demuxes_names_impl_app (info : LayerInfo) :
  forall res, get_demuxes_names_impl info res = res ++ get_demuxes_names info.
Proof.
  induction info as [n d net mux preds defused fused IH] using LayerInfo_pred_ind.
  intros res. unfold get_demuxes_names.
  rewrite !get_demuxes_names_impl_unfold. simpl.
  destruct mux; simpl; [|reflexivity].
  now rewrite !(demux_for_preds_app preds IH).
Qed.

Lemma get_demuxes_names_unfold (info : LayerInfo) :
  get_demuxes_names info =
  if is_mux info then flat_map get_demuxes_names (predecessor info) else [name info].
Proof.
  unfold get_demuxes_names at 1. rewrite get_demuxes_names_impl_unfold.
  destruct (is_mux info); simpl; [|reflexivity].
  apply (demux_for_preds_app (predecessor info)).
  apply Forall_forall. intros p _. apply get_demuxes_names_impl_app.
Qed.

Lemma leaf_count_unfold (info : LayerInfo) :
  leaf_count info =
  if is_mux info then list_sum (map leaf_count (predecessor info)) else 1.
Proof.
  destruct info as [n d net mux preds defused fused]; simpl.
  destruct mux; [|reflexivity].
  induction preds as [|p ps IH]; simpl; [reflexivity|]. now rewrite IH.
Qed.

Lemma demux_names_spec_unfold (info : LayerInfo) :
  demux_names_spec info =
  if is_mux info then flat_map demux_names_spec (predecessor info) else [name info].
Proof.
  destruct info as [n d net mux preds defused fused]; simpl.
  destruct mux; [|reflexivity].
  induction preds as [|p ps IH]; simpl; [reflexivity|]. now rewrite IH.
Qed.

Lemma get_demuxes_names_spec (info : LayerInfo) :
  get_demuxes_names info = demux_names_spec info.
Proof.
  induction info as [n d net mux preds defused fused IH] using LayerInfo_pred_ind.
  rewrite get_demuxes_names_unfold, demux_names_spec_unfold. simpl.
  destruct mux; [|reflexivity].
  induction IH as [|p ps Hp _ IHps]; simpl; [reflexivity|].
  now rewrite Hp, IHps.
Qed.

Lemma get_demuxes_names_length (info : LayerInfo) :
  List.length (get_demuxes_names info) = leaf_count info.
Proof.
  induction info as [n d net mux preds defused fused IH] using LayerInfo_pred_ind.
  rewrite get_demuxes_names_unfold, leaf_count_unfold. simpl.
  destruct mux; [|reflexivity].
  induction IH as [|p ps Hp _ IHps]; simpl; [reflexivity|].
  now rewrite length_app, Hp, IHps.
Qed.

Lemma is_edge_under_mux_unfold (info : LayerInfo) (edge_name : string) :
  is_edge_under_mux info edge_name =
  if is_mux info
  then existsb (fun pred => is_edge_under_mux pred edge_name) (predecessor info)
  else String.eqb edge_name (name info).
Proof.
  destruct info as [n d net mux preds defused fused]; simpl.
  destruct mux; simpl; [|reflexivity].
  induction preds as [|p ps IH]; simpl; [reflexivity|].
  rewrite IH. now destruct (is_edge_under_mux p edge_name).
Qed.

Lemma is_edge_under_mux_simplified_unfold (info : LayerInfo) (edge_name : string) :
  is_edge_under_mux_simplified info edge_name =
  if is_mux info
  then existsb
         (fun pred =>
            if is_mux pred then is_edge_under_mux_simplified pred edge_name
            else String.eqb edge_name (name pred))
         (predecessor info)
  else String.eqb edge_name (name info).
Proof.
  destruct info as [n d net mux preds defused fused]; simpl.
  destruct mux; simpl; [|reflexivity].
  induction preds as [|p ps IH]; simpl; [reflexivity|].
  rewrite IH. destruct (is_mux p).
  - now destruct (is_edge_under_mux_simplified p edge_name).
  - now destruct (String.eqb edge_name (name p)).
Qed.

(** C7: for a non-mux layer [get_demuxes_names] is the one-element sequence of
    its name; for a mux layer it is the concatenation, in predecessor order,
    of the demux names of its predecessors; it is the depth-first,
    left-to-right enumeration of the non-mux leaves, and its length is their
    number. *)
Theorem get_demuxes_names_depth_first (L : LayerInfo) :
  get_demuxes_names L =
    (if is_mux L then flat_map get_demuxes_names (predecessor L) else [name L])
  /\ get_demuxes_names L = demux_names_spec L
  /\ List.length (get_demuxes_names L) = leaf_count L.
Proof.
  split; [apply get_demuxes_names_unfold|].
  split; [apply get_demuxes_names_spec|apply get_demuxes_names_length].
Qed.

(** C6: [is_edge_under_mux L edge_name] is true exactly when [edge_name] is an
    element of [get_demuxes_names L]; the layer need not be well formed. *)
Theorem is_edge_under_mux_iff_demux_name (L : LayerInfo) (edge_name : string) :
  is_edge_under_mux L edge_name = true <-> In edge_name (get_demuxes_names L).
Proof.
  induction L as [n d net mux preds defused fused IH] using LayerInfo_pred_ind.
  rewrite is_edge_under_mux_unfold, get_demuxes_names_unfold. simpl.
  destruct mux.
  - rewrite existsb_exists, in_flat_map.
    rewrite Forall_forall in IH.
    split; intros [p [Hin Hp]]; exists p; (split; [exact Hin|]); now apply (IH p Hin).
  - rewrite String.eqb_eq. simpl. split.
    + intros ->. now left.
    + intros [H|[]]. now symmetry.
Qed.

(** C9: the implemented [is_edge_under_mux], which tests [info.is_mux] again
    inside the loop, and the simplified function, which recurses into a mux
    predecessor and compares the name of any other, return the same
    boolean on every layer and every name. *)
Theorem is_edge_under_mux_simplified_eq (L : LayerInfo) (edge_name : string) :
  is_edge_under_mux L edge_name = is_edge_under_mux_simplified L edge_name.
Proof.
  induction L as [n d net mux preds defused fused IH] using LayerInfo_pred_ind.
  rewrite is_edge_under_mux_unfold, is_edge_under_mux_simplified_unfold. simpl.
  destruct mux; [|reflexivity].
  induction IH as [|p ps Hp _ IHps]; simpl; [reflexivity|].
  rewrite IHps. f_equal.
  rewrite <- Hp. rewrite (is_edge_under_mux_unfold p).
  now destruct (is_mux p).
Qed.

(** The end-to-end example of the specification. *)
Example demux_example :
  let M := mux_layer "M" HAILO_D2H_STREAM ""
             [leaf_layer "a" HAILO_D2H_STREAM "";
              mux_layer "B" HAILO_D2H_STREAM "" [leaf_layer "c" HAILO_D2H_STREAM ""]] in
  get_demuxes_names M = ["a"; "c"]
  /\ is_edge_under_mux M "c" = true
  /\ is_edge_under_mux M "z" = false.
Proof. repeat split. Qed.

(** ** Loops that fill a vector *)

Lemma push_back_loop {T : Type} (keep : T -> bool) (l : list T) :
  forall res,
    fold_left (fun res x => if keep x then res ++ [x] else res) l res = res ++ filter keep l.
Proof.
  induction l as [|x l IH]; intros res; simpl.
  - now rewrite app_nil_r.
  - rewrite IH. destruct (keep x); [now rewrite <- app_assoc|reflexivity].
Qed.

Lemma nested_push_back_loop {C T : Type} (keep : T -> bool) (inner : C -> list T)
    (cs : list C) :
  forall res,
    fold_left
      (fun res c => fold_left (fun res x => if keep x then res ++ [x] else res) (inner c) res)
      cs res
    = res ++ filter keep (flat_map inner cs).
Proof.
  induction cs as [|c cs IH]; intros res; simpl.
  - now rewrite app_nil_r.
  - rewrite IH, push_back_loop, filter_app. now rewrite app_assoc.
Qed.

Lemma filter_true {T : Type} (l : list T) : filter (fun _ => true) l = l.
Proof. induction l as [|x l IH]; simpl; [reflexivity|now rewrite IH]. Qed.

Lemma get_input_layer_infos_flat (m : CoreOpMetadata) :
  get_input_layer_infos m = flat_map m_boundary_input_layers (m_dynamic_contexts m).
Proof.
  unfold get_input_layer_infos.
  rewrite (nested_push_back_loop (fun _ => true) m_boundary_input_layers). simpl.
  apply filter_true.
Qed.

Lemma get_output_layer_infos_flat (m : CoreOpMetadata) :
  get_output_layer_infos m = flat_map m_boundary_output_layers (m_dynamic_contexts m).
Proof.
  unfold get_output_layer_infos.
  rewrite (nested_push_back_loop (fun _ => true) m_boundary_output_layers). simpl.
  apply filter_true.
Qed.

Lemma check_not_empty {T : Type} (res : list T) :
  check_as_expected (Nat.ltb 0 (List.length res)) HAILO_NOT_FOUND res = not_found_if_empty res.
Proof. now destruct res. Qed.

Lemma string_empty_eqb (s : string) : Nat.eqb (String.length s) 0 = String.eqb s "".
Proof. now destruct s. Qed.

Lemma filter_network_matches (get_network_name : string -> string) (m : CoreOpMetadata)
    (net : string) (all : list LayerInfo) :
  filter (fun layer_info => network_matches get_network_name m layer_info net) all
  = requested_layers (default_network_name get_network_name m) net all.
Proof.
  unfold requested_layers, network_matches. rewrite string_empty_eqb.
  destruct (String.eqb net "" || String.eqb net (default_network_name get_network_name m))
    eqn:E.
  - rewrite <- (filter_true all) at 2. apply filter_ext. intros l.
    rewrite <- orb_assoc, E. apply orb_true_r.
  - apply filter_ext. intros l. rewrite <- orb_assoc, E. apply orb_false_r.
Qed.

(** C5: the filtered input and output layer queries return the boundary layers
    of their direction, in the order of the dynamic contexts, whose network
    name is the requested one, or all of them when the requested name is empty
    or is the default network name; they fail with NotFound exactly when that
    list is empty. *)
Theorem filtered_layer_infos (get_network_name : string -> string) (m : CoreOpMetadata)
    (net : string) :
  get_input_layer_infos_of get_network_name m net
    = not_found_if_empty
        (requested_layers (default_network_name get_network_name m) net
           (flat_map m_boundary_input_layers (m_dynamic_contexts m)))
  /\ get_output_layer_infos_of get_network_name m net
    = not_found_if_empty
        (requested_layers (default_network_name get_network_name m) net
           (flat_map m_boundary_output_layers (m_dynamic_contexts m))).
Proof.
  unfold get_input_layer_infos_of, get_output_layer_infos_of.
  rewrite !check_not_empty, !nested_push_back_loop. simpl.
  now rewrite !filter_network_matches.
Qed.

(** An unknown network name and an empty model queried with the empty string
    give the same NotFound. *)
Example filtered_layer_infos_not_found :
  let ctx := add_boundary_layer (add_boundary_layer (ContextMetadata_new [] [])
                                   (leaf_layer "in0" HAILO_H2D_STREAM "net0"))
               (leaf_layer "out0" HAILO_D2H_STREAM "net0") in
  let prelim := ContextMetadata_new [] [] in
  let features := mkSupportedFeatures false in
  let model := mkCoreOpMetadata prelim [ctx] "op" ["out0"] features ["net0"] [] in
  let empty_model := mkCoreOpMetadata prelim [] "op" [] features [] [] in
  let default_of := fun op => String.append op "/default" in
  get_input_layer_infos_of default_of model "net1" = Unexpected HAILO_NOT_FOUND
  /\ get_output_layer_infos_of default_of empty_model "" = Unexpected HAILO_NOT_FOUND
  /\ get_input_layer_infos_of default_of model "" = Ok [leaf_layer "in0" HAILO_H2D_STREAM "net0"]
  /\ get_output_layer_infos_of default_of model "op/default"
     = Ok [leaf_layer "out0" HAILO_D2H_STREAM "net0"].
Proof. repeat split. Qed.

(** ** Conversion to virtual-stream descriptors *)

Lemma already_in_vector_seen (res : list hailo_vstream_info_t) (n : string) :
  vstream_info_already_in_vector res n = existsb (String.eqb n) (map vs_name res).
Proof.
  unfold vstream_info_already_in_vector.
  induction res as [|x res IH]; simpl; [reflexivity|now rewrite IH].
Qed.

Lemma dedup_loop (l : list hailo_vstream_info_t) :
  forall res,
    fold_left
      (fun res vstream_info =>
         if negb (vstream_info_already_in_vector res (vs_name vstream_info))
         then res ++ [vstream_info]
         else res)
      l res
    = res ++ first_occurrences (map vs_name res) l.
Proof.
  induction l as [|x l IH]; intros res; simpl.
  - now rewrite app_nil_r.
  - rewrite IH, already_in_vector_seen.
    destruct (existsb (String.eqb (vs_name x)) (map vs_name res)); simpl; [reflexivity|].
    rewrite map_app. simpl. now rewrite <- app_assoc.
Qed.

Lemma first_occurrences_app (l1 l2 : list hailo_vstream_info_t) :
  forall seen,
    first_occurrences seen (l1 ++ l2)
    = first_occurrences seen l1
        ++ first_occurrences (seen ++ map vs_name (first_occurrences seen l1)) l2.
Proof.
  induction l1 as [|x l1 IH]; intros seen; simpl.
  - now rewrite app_nil_r.
  - destruct (existsb (String.eqb (vs_name x)) seen); [apply IH|].
    simpl. rewrite IH. now rewrite <- app_assoc.
Qed.

Lemma convert_loop (conv : LayerInfo -> list hailo_vstream_info_t) (layers : list LayerInfo) :
  forall res,
    fold_left
      (fun res layer_info =>
         fold_left
           (fun res vstream_info =>
              if negb (vstream_info_already_in_vector res (vs_name vstream_info))
              then res ++ [vstream_info]
              else res)
           (conv layer_info) res)
      layers res
    = res ++ first_occurrences (map vs_name res) (flat_map conv layers).
Proof.
  induction layers as [|x layers IH]; intros res; simpl.
  - now rewrite app_nil_r.
  - rewrite IH, dedup_loop, first_occurrences_app, map_app. now rewrite <- app_assoc.
Qed.

Lemma existsb_eqb_In (n : string) (seen : list string) :
  existsb (String.eqb n) seen = true <-> In n seen.
Proof.
  rewrite existsb_exists. split.
  - intros [y [Hin Heq]]. apply String.eqb_eq in Heq. now subst.
  - intros Hin. exists n. split; [exact Hin|apply String.eqb_refl].
Qed.

Lemma first_occurrences_names (l : list hailo_vstream_info_t) :
  forall seen n,
    In n (map vs_name (first_occurrences seen l)) <-> In n (map vs_name l) /\ ~ In n seen.
Proof.
  induction l as [|x l IH]; intros seen n; simpl.
  - tauto.
  - destruct (existsb (String.eqb (vs_name x)) seen) eqn:E.
    + apply existsb_eqb_In in E. rewrite IH. split.
      * intros [H1 H2]. tauto.
      * intros [[H1|H1] H2]; [subst; contradiction|tauto].
    + assert (Hx : ~ In (vs_name x) seen).
      { intros H. apply existsb_eqb_In in H. congruence. }
      simpl. rewrite IH, in_app_iff. simpl. split.
      * intros [H|[H1 H2]]; [subst; tauto|tauto].
      * intros [[H|H] H2]; [now left|].
        destruct (string_dec (vs_name x) n) as [Heq|Hne]; [now left|right].
        split; [exact H|]. intros [H3|[H3|[]]]; contradiction.
Qed.

Lemma first_occurrences_NoDup (l : list hailo_vstream_info_t) :
  forall seen, NoDup (map vs_name (first_occurrences seen l)).
Proof.
  induction l as [|x l IH]; intros seen; simpl.
  - constructor.
  - destruct (existsb (String.eqb (vs_name x)) seen); [apply IH|].
    simpl. constructor; [|apply IH].
    rewrite first_occurrences_names, in_app_iff. simpl. tauto.
Qed.

Lemma first_occurrences_find (l : list hailo_vstream_info_t) :
  forall seen n,
    ~ In n seen ->
    find (fun info => String.eqb (vs_name info) n) (first_occurrences seen l)
    = find (fun info => String.eqb (vs_name info) n) l.
Proof.
  induction l as [|x l IH]; intros seen n Hn; simpl; [reflexivity|].
  destruct (existsb (String.eqb (vs_name x)) seen) eqn:E.
  - apply existsb_eqb_In in E.
    destruct (String.eqb (vs_name x) n) eqn:En.
    + apply String.eqb_eq in En. subst. contradiction.
    + now apply IH.
  - simpl. destruct (String.eqb (vs_name x) n) eqn:En; [reflexivity|].
    apply IH. rewrite in_app_iff. simpl. intros [H|[H|[]]]; [contradiction|].
    subst. now rewrite String.eqb_refl in En.
Qed.

Lemma named_once (n : string) (l : list hailo_vstream_info_t) :
  NoDup (map vs_name l) -> In n (map vs_name l) -> List.length (named n l) = 1.
Proof.
  unfold named. induction l as [|x l IH]; simpl; intros Hnd Hin; [contradiction|].
  inversion Hnd as [|? ? Hx Hnd']; subst.
  destruct (String.eqb (vs_name x) n) eqn:E.
  - apply String.eqb_eq in E. subst. simpl. f_equal.
    assert (Hnone : forall l', ~ In (vs_name x) (map vs_name l') ->
                          filter (fun info => String.eqb (vs_name info) (vs_name x)) l' = []).
    { induction l' as [|y l' IH']; simpl; intros Hy; [reflexivity|].
      destruct (String.eqb (vs_name y) (vs_name x)) eqn:Ey.
      - apply String.eqb_eq in Ey. tauto.
      - apply IH'. tauto. }
    now rewrite Hnone.
  - destruct Hin as [Hin|Hin]; [subst; now rewrite String.eqb_refl in E|].
    now apply IH.
Qed.

Lemma convert_first_occurrences (conv : LayerInfo -> list hailo_vstream_info_t)
    (layers : list LayerInfo) :
  convert_layer_infos_to_vstream_infos conv layers
  = first_occurrences [] (flat_map conv layers).
Proof. unfold convert_layer_infos_to_vstream_infos. now rewrite convert_loop. Qed.

(** C8: [convert_layer_infos_to_vstream_infos] keeps, of the concatenated
    per-layer descriptors, the first occurrence of each vstream name: the
    names of the result are pairwise different, and looking a name up in the
    result finds the descriptor that the concatenation has first.  When the
    list of layers is not empty and the conversion of each of them yields a
    descriptor named [fused_name], the result has exactly one descriptor of
    that name. *)
Theorem convert_layer_infos_to_vstream_infos_dedup
    (conv : LayerInfo -> list hailo_vstream_info_t) (layers : list LayerInfo) :
  convert_layer_infos_to_vstream_infos conv layers
    = first_occurrences [] (flat_map conv layers)
  /\ NoDup (map vs_name (convert_layer_infos_to_vstream_infos conv layers))
  /\ (forall n,
        find (fun info => String.eqb (vs_name info) n)
          (convert_layer_infos_to_vstream_infos conv layers)
        = find (fun info => String.eqb (vs_name info) n) (flat_map conv layers))
  /\ (forall fused_name,
        layers <> [] ->
        Forall (fun layer_info => In fused_name (map vs_name (conv layer_info))) layers ->
        List.length (named fused_name (convert_layer_infos_to_vstream_infos conv layers)) = 1).
Proof.
  rewrite convert_first_occurrences.
  split; [reflexivity|].
  split; [apply first_occurrences_NoDup|].
  split; [intros n; now apply first_occurrences_find|].
  intros fused_name Hne Hall.
  apply named_once; [apply first_occurrences_NoDup|].
  rewrite first_occurrences_names. split; [|tauto].
  destruct layers as [|l layers]; [contradiction|].
  inversion Hall as [|? ? Hl _]; subst.
  simpl. rewrite map_app, in_app_iff. now left.
Qed.

(** ** Stream names and virtual-stream names *)

Lemma vector_front_present {T : Type} (v : list T) :
  v <> [] -> exists x rest, v = x :: rest /\ vector_front v = Returns x.
Proof.
  destruct v as [|x rest]; [intros H; now contradiction H|].
  intros _. now exists x, rest.
Qed.

Lemma vstream_names_scan_returns (layers : list LayerInfo) (stream_name : string) :
  Forall fused_layer_present layers ->
  exists r, vstream_names_scan layers stream_name = Returns r.
Proof.
  induction 1 as [|l layers Hl _ IH]; simpl; [now eexists|].
  destruct (String.eqb stream_name (name l)); [|exact IH].
  destruct (is_defused_nms l) eqn:Ed.
  - destruct (vector_front_present (fused_nms_layer l) (Hl Ed)) as [x [rest [_ ->]]].
    simpl. now eexists.
  - destruct (is_mux l); now eexists.
Qed.

Lemma stream_names_scan_filter (net_flow : bool) (vstream_name : string)
    (layers : list LayerInfo) :
  Forall fused_layer_present layers ->
  forall results,
    stream_names_scan net_flow layers vstream_name results
    = Returns (results ++ map name (filter (contributes net_flow vstream_name) layers)).
Proof.
  induction 1 as [|l layers Hl _ IH]; intros results; simpl.
  - now rewrite app_nil_r.
  - unfold contributes at 1. destruct (is_mux l).
    + destruct (is_edge_under_mux l vstream_name); rewrite IH; simpl;
        [now rewrite <- app_assoc|reflexivity].
    + destruct (is_defused_nms l) eqn:Ed.
      * destruct (vector_front_present (fused_nms_layer l) (Hl Ed)) as [x [rest [-> ->]]].
        simpl. destruct (String.eqb vstream_name (name x)); rewrite IH; simpl;
          [now rewrite <- app_assoc|reflexivity].
      * destruct (net_flow && direction_eqb (direction l) HAILO_D2H_STREAM).
        -- rewrite IH. simpl. now rewrite <- app_assoc.
        -- destruct (String.eqb vstream_name (name l)); rewrite IH; simpl;
             [now rewrite <- app_assoc|reflexivity].
Qed.

(** C10: when every defused-NMS boundary layer carries its fused layer, the
    read of [fused_nms_layer[0]] in [get_vstream_names_from_stream_name] and
    in [get_stream_names_from_vstream_name], made only on defused-NMS layers,
    is in bounds: both calls return, for every name queried. *)
Theorem fused_nms_layer_front_in_bounds (m : CoreOpMetadata) (queried : string)
    (Hfused : Forall fused_layer_present (get_all_layer_infos m)) :
  (exists r, get_vstream_names_from_stream_name m queried = Returns r)
  /\ (exists r, get_stream_names_from_vstream_name m queried = Returns r).
Proof.
  split.
  - now apply vstream_names_scan_returns.
  - unfold get_stream_names_from_vstream_name.
    rewrite (stream_names_scan_filter _ _ _ Hfused). simpl. now eexists.
Qed.

(** C3, as the code has it: the result of [get_stream_names_from_vstream_name]
    is the names of the contributing layers in scan order, NotFound exactly
    when there is none.  With [hailo_net_flow] set, a device-to-host layer
    that is neither mux nor defused-NMS contributes whatever the requested
    name; with it unset, a layer that is neither mux nor defused-NMS
    contributes exactly when its name is the requested one.  A mux layer
    contributes when the requested name is under it, a defused-NMS layer when
    the requested name is that of its fused layer, whatever the flag. *)
Theorem get_stream_names_from_vstream_name_contributions (m : CoreOpMetadata)
    (vstream_name : string)
    (Hfused : Forall fused_layer_present (get_all_layer_infos m)) :
  get_stream_names_from_vstream_name m vstream_name
    = Returns
        (not_found_if_empty
           (map name
              (filter (contributes (hailo_net_flow (m_supported_features m)) vstream_name)
                 (get_all_layer_infos m))))
  /\ (forall layer_info,
        is_mux layer_info = false -> is_defused_nms layer_info = false ->
        direction layer_info = HAILO_D2H_STREAM ->
        contributes true vstream_name layer_info = true)
  /\ (forall layer_info,
        is_mux layer_info = false -> is_defused_nms layer_info = false ->
        contributes false vstream_name layer_info = String.eqb vstream_name (name layer_info))
  /\ (forall net_flow layer_info,
        is_mux layer_info = true ->
        contributes net_flow vstream_name layer_info
        = is_edge_under_mux layer_info vstream_name)
  /\ (forall net_flow layer_info fused rest,
        is_mux layer_info = false -> is_defused_nms layer_info = true ->
        fused_nms_layer layer_info = fused :: rest ->
        contributes net_flow vstream_name layer_info = String.eqb vstream_name (name fused)).
Proof.
  split; [|split; [|split; [|split]]].
  - unfold get_stream_names_from_vstream_name.
    rewrite (stream_names_scan_filter _ _ _ Hfused). simpl.
    now rewrite check_not_empty.
  - intros l Hmux Hdef Hdir. unfold contributes. now rewrite Hmux, Hdef, Hdir.
  - intros l Hmux Hdef. unfold contributes. now rewrite Hmux, Hdef.
  - intros nf l Hmux. unfold contributes. now rewrite Hmux.
  - intros nf l fused rest Hmux Hdef Hfront. unfold contributes.
    now rewrite Hmux, Hdef, Hfront.
Qed.

(** C3 as stated fails: with [hailo_net_flow] set, a device-to-host mux layer
    that does not hold the requested name is left out of the result. *)
Lemma every_d2h_layer_contributes_fails : ~ every_d2h_layer_contributes.
Proof.
  intros claim.
  pose (mux0 := mux_layer "mux0" HAILO_D2H_STREAM "" [leaf_layer "a" HAILO_D2H_STREAM ""]).
  pose (out1 := leaf_layer "out1" HAILO_D2H_STREAM "").
  destruct (claim (single_context_model true [] [mux0; out1]) "z" mux0)
    as [results [Hres Hin]].
  - reflexivity.
  - simpl. now left.
  - reflexivity.
  - vm_compute in Hres. injection Hres as <-.
    destruct Hin as [H|[]]. discriminate H.
Qed.

(** ** The per-arch map *)

Lemma map_lookup_assign (m : MetadataPerArch) (key : Z) (value : CoreOpMetadata) (k : Z) :
  map_lookup (map_assign m key value) k
  = if (k =? key)%Z then Some value else map_lookup m k.
Proof.
  induction m as [|[k0 v0] m IH]; simpl.
  - reflexivity.
  - destruct (key <? k0)%Z eqn:Elt; simpl; [reflexivity|].
    destruct (key =? k0)%Z eqn:Eeq; simpl.
    + apply Z.eqb_eq in Eeq. subst k0. now destruct (k =? key)%Z.
    + rewrite IH. destruct (k =? k0)%Z eqn:Ek; [|reflexivity].
      apply Z.eqb_eq in Ek. subst k0.
      destruct (k =? key)%Z eqn:Ek'; [|reflexivity].
      apply Z.eqb_eq in Ek'. subst. now rewrite Z.eqb_refl in Eeq.
Qed.

Lemma map_lookup_add_all (calls : list (CoreOpMetadata * Z)) :
  forall m k,
    map_lookup (add_all calls m) k
    = match last_added calls k with
      | Some v => Some v
      | None => map_lookup m k
      end.
Proof.
  induction calls as [|[v0 k0] calls IH]; intros m k; simpl; [reflexivity|].
  unfold add_all in IH |- *. simpl. rewrite IH.
  destruct (last_added calls k); [reflexivity|].
  unfold add_metadata. simpl. rewrite map_lookup_assign.
  now destruct (k =? k0)%Z.
Qed.

Lemma keys_increasing_tail (k : Z) (v : CoreOpMetadata) (m : MetadataPerArch) :
  keys_increasing ((k, v) :: m) -> keys_increasing m.
Proof. simpl. destruct m as [|[k' v'] m]; [trivial|]. now intros [_ H]. Qed.

Lemma keys_increasing_assign (m : MetadataPerArch) (key : Z) (value : CoreOpMetadata) :
  keys_increasing m ->
  keys_increasing (map_assign m key value)
  /\ (forall bound, (bound < key)%Z ->
        match m with [] => True | (k, _) :: _ => (bound < k)%Z end ->
        match map_assign m key value with [] => True | (k, _) :: _ => (bound < k)%Z end).
Proof.
  induction m as [|[k0 v0] m IH]; intros Hm.
  - simpl. split; [trivial|]. now intros bound Hb _.
  - cbn [map_assign].
    destruct (key <? k0)%Z eqn:Elt.
    + apply Z.ltb_lt in Elt. split; [|now intros bound Hb _].
      change (keys_increasing ((key, value) :: (k0, v0) :: m)).
      cbn [keys_increasing]. split; [exact Elt|exact Hm].
    + apply Z.ltb_ge in Elt.
      destruct (key =? k0)%Z eqn:Eeq.
      * apply Z.eqb_eq in Eeq. subst k0. split; [|now intros bound Hb _].
        destruct m as [|[k1 v1] m]; [exact I|exact Hm].
      * apply Z.eqb_neq in Eeq.
        destruct (IH (keys_increasing_tail _ _ _ Hm)) as [IH1 IH2].
        split; [|now intros bound _ Hb].
        assert (Hhead : match map_assign m key value with
                        | [] => True
                        | (k, _) :: _ => (k0 < k)%Z
                        end).
        { apply IH2; [lia|]. destruct m as [|[k1 v1] m]; [exact I|]. now destruct Hm. }
        destruct (map_assign m key value) as [|[k1 v1] m'] eqn:Em; [exact I|].
        cbn [keys_increasing]. split; [exact Hhead|exact IH1].
Qed.

Lemma keys_increasing_add_all (calls : list (CoreOpMetadata * Z)) :
  forall m, keys_increasing m -> keys_increasing (add_all calls m).
Proof.
  induction calls as [|[v0 k0] calls IH]; intros m Hm; [exact Hm|].
  unfold add_all in IH |- *. simpl. apply IH.
  now apply keys_increasing_assign.
Qed.

Lemma keys_increasing_head_least (k : Z) (v : CoreOpMetadata) (m : MetadataPerArch) :
  keys_increasing ((k, v) :: m) ->
  forall k', map_lookup ((k, v) :: m) k' <> None -> (k <= k')%Z.
Proof.
  revert k v. induction m as [|[k1 v1] m IH]; intros k v Hm k' Hk'; simpl in Hk'.
  - destruct (k' =? k)%Z eqn:E; [apply Z.eqb_eq in E; lia|congruence].
  - destruct (k' =? k)%Z eqn:E; [apply Z.eqb_eq in E; lia|].
    destruct Hm as [Hlt Hm]. specialize (IH k1 v1 Hm k'). simpl in IH.
    specialize (IH Hk'). lia.
Qed.

Lemma last_added_of_call (calls : list (CoreOpMetadata * Z)) (call : CoreOpMetadata * Z) :
  In call calls -> last_added calls (snd call) <> None.
Proof.
  induction calls as [|[v0 k0] calls IH]; simpl; [contradiction|].
  intros [Heq|Hin].
  - subst call. simpl. destruct (last_added calls k0); [discriminate|].
    rewrite Z.eqb_refl. discriminate.
  - destruct (last_added calls (snd call)) eqn:E; [discriminate|].
    now apply IH in Hin.
Qed.

(** C2, as the code has it: after any sequence of [add_metadata] calls, a
    lookup of a bitmap other than the sentinel returns the variant last stored
    under that key, or fails with InternalFailure when no call used the key;
    a lookup of the sentinel returns the variant stored under the least key
    when some call was made, and stops at its [assert] when none was. *)
Theorem get_metadata_after_calls (ignore : Z) (calls : list (CoreOpMetadata * Z))
    (bitmap : Z) :
  (bitmap <> ignore ->
     get_metadata ignore (add_all calls []) bitmap
     = match last_added calls bitmap with
       | Some stored => Returns (Ok stored)
       | None => Returns (Unexpected HAILO_INTERNAL_FAILURE)
       end)
  /\ (calls <> [] ->
      exists least stored,
        last_added calls least = Some stored
        /\ (forall call, In call calls -> (least <= snd call)%Z)
        /\ get_metadata ignore (add_all calls []) ignore = Returns (Ok stored))
  /\ (calls = [] -> get_metadata ignore (add_all calls []) ignore = AssertionFailed).
Proof.
  split; [|split].
  - intros Hne. unfold get_metadata.
    assert (E : (ignore =? bitmap)%Z = false) by (apply Z.eqb_neq; congruence).
    rewrite E, map_lookup_add_all. simpl. now destruct (last_added calls bitmap).
  - intros Hne.
    assert (Hsorted : keys_increasing (add_all calls [])).
    { now apply keys_increasing_add_all. }
    assert (Hlookup := map_lookup_add_all calls []).
    destruct (add_all calls []) as [|[k v] m] eqn:Em.
    + destruct calls as [|call calls]; [contradiction|].
      specialize (Hlookup (snd call)). cbn [map_lookup] in Hlookup.
      pose proof (last_added_of_call (call :: calls) call (or_introl eq_refl)) as Hc.
      destruct (last_added (call :: calls) (snd call)); [discriminate|contradiction].
    + exists k, v. split; [|split].
      * specialize (Hlookup k). cbn [map_lookup] in Hlookup.
        rewrite Z.eqb_refl in Hlookup.
        destruct (last_added calls k); congruence.
      * intros call Hin. apply (keys_increasing_head_least k v m Hsorted).
        rewrite Hlookup. pose proof (last_added_of_call calls call Hin) as Hc.
        destruct (last_added calls (snd call)); [discriminate|contradiction].
      * unfold get_metadata. now rewrite Z.eqb_refl.
  - intros ->. unfold get_metadata. simpl. now rewrite Z.eqb_refl.
Qed.

(** C2 as stated fails: the sentinel lookup returns the variant of the least
    key, not of the first call; in an empty map it stops at the [assert] and
    returns no error; and when the sentinel is itself a key next to a smaller
    one, the lookup does not return the variant stored under it. *)
Lemma get_metadata_sentinel_claims_fail :
  ~ sentinel_returns_first_inserted
  /\ ~ sentinel_on_empty_map_is_an_error
  /\ ~ every_key_returns_its_variant.
Proof.
  split; [|split].
  - intros claim.
    specialize (claim 4294967295%Z (named_variant "meta1", 7%Z) [(named_variant "meta2", 3%Z)]).
    vm_compute in claim. discriminate claim.
  - intros claim. specialize (claim 4294967295%Z). vm_compute in claim. discriminate claim.
  - intros claim.
    specialize (claim 4294967295%Z 4294967295%Z
                  [(named_variant "meta1", 4294967295%Z); (named_variant "meta2", 3%Z)]
                  (named_variant "meta1") eq_refl).
    vm_compute in claim. discriminate claim.
Qed.

(** The per-arch example of the specification. *)
Example get_metadata_example :
  let per_arch := add_all [(named_variant "meta1", 3%Z); (named_variant "meta2", 7%Z)] [] in
  let ignore := 4294967295%Z in
  get_metadata ignore per_arch 3 = Returns (Ok (named_variant "meta1"))
  /\ get_metadata ignore per_arch 7 = Returns (Ok (named_variant "meta2"))
  /\ get_metadata ignore per_arch ignore = Returns (Ok (named_variant "meta1"))
  /\ get_metadata ignore per_arch 9 = Returns (Unexpected HAILO_INTERNAL_FAILURE).
Proof. repeat split. Qed.

(** ** Output virtual streams and their order *)

(** A range of one element is returned as it is, and the comparator is not
    called. *)
Lemma std_sort_single {A S : Type} (comp : A -> A -> S -> bool * S) (x : A) (st : S) :
  std_sort comp [x] st = ([x], st).
Proof. reflexivity. Qed.

Lemma output_order_comp_absent (m : CoreOpMetadata) (info1 info2 : hailo_vstream_info_t)
    (status : hailo_status) :
  name_absent m info1 || name_absent m info2 = true ->
  output_order_comp m info1 info2 status = (false, HAILO_INTERNAL_FAILURE).
Proof.
  unfold output_order_comp, name_absent. intros H.
  destruct (Nat.eqb _ (std_find _ (vs_name info1))); [reflexivity|].
  simpl in H. now rewrite H.
Qed.

Lemma output_order_comp_failed (m : CoreOpMetadata) (info1 info2 : hailo_vstream_info_t) :
  snd (output_order_comp m info1 info2 HAILO_INTERNAL_FAILURE) = HAILO_INTERNAL_FAILURE.
Proof.
  unfold output_order_comp.
  destruct (Nat.eqb _ (std_find _ (vs_name info1))); [reflexivity|].
  now destruct (Nat.eqb _ (std_find _ (vs_name info2))).
Qed.

Lemma linear_insert_failed (m : CoreOpMetadata) (val : hailo_vstream_info_t)
    (before : list hailo_vstream_info_t) :
  forall after,
    snd (unguarded_linear_insert (output_order_comp m) val before after HAILO_INTERNAL_FAILURE)
    = HAILO_INTERNAL_FAILURE.
Proof.
  induction before as [|next before IH]; intros after; simpl; [reflexivity|].
  pose proof (output_order_comp_failed m val next) as H.
  destruct (output_order_comp m val next HAILO_INTERNAL_FAILURE) as [less st'].
  simpl in H. subst st'. destruct less; [apply IH|reflexivity].
Qed.

Lemma linear_insert_not_empty (m : CoreOpMetadata) (val : hailo_vstream_info_t)
    (before : list hailo_vstream_info_t) :
  forall after st,
    fst (unguarded_linear_insert (output_order_comp m) val before after st) <> [].
Proof.
  induction before as [|next before IH]; intros after st; simpl; [discriminate|].
  destruct (output_order_comp m val next st) as [less st'].
  destruct less; [apply IH|]. simpl.
  destruct (rev before ++ [next]) eqn:E; [|discriminate].
  now apply app_eq_nil in E.
Qed.

Lemma insertion_sort_failed (m : CoreOpMetadata) (rest : list hailo_vstream_info_t) :
  forall sorted,
    snd (insertion_sort_from (output_order_comp m) sorted rest HAILO_INTERNAL_FAILURE)
    = HAILO_INTERNAL_FAILURE.
Proof.
  induction rest as [|x rest IH]; intros sorted; simpl; [reflexivity|].
  destruct sorted as [|first sorted]; [apply IH|].
  pose proof (output_order_comp_failed m x first) as H.
  destruct (output_order_comp m x first HAILO_INTERNAL_FAILURE) as [less st'].
  simpl in H. subst st'. destruct less; [apply IH|].
  pose proof (linear_insert_failed m x (rev (first :: sorted)) []) as H.
  destruct (unguarded_linear_insert _ x (rev (first :: sorted)) [] HAILO_INTERNAL_FAILURE)
    as [sorted' st''].
  simpl in H. subst st''. apply IH.
Qed.

Lemma insertion_step_absent (m : CoreOpMetadata) (x first : hailo_vstream_info_t)
    (sorted rest : list hailo_vstream_info_t) (st : hailo_status) :
  name_absent m x || name_absent m first = true ->
  snd (insertion_sort_from (output_order_comp m) (first :: sorted) (x :: rest) st)
  = HAILO_INTERNAL_FAILURE.
Proof.
  intros Habs. cbn [insertion_sort_from].
  rewrite (output_order_comp_absent m x first st Habs).
  pose proof (linear_insert_failed m x (rev (first :: sorted)) []) as H.
  destruct (unguarded_linear_insert _ x (rev (first :: sorted)) [] HAILO_INTERNAL_FAILURE)
    as [sorted' st''].
  simpl in H. subst st''. apply insertion_sort_failed.
Qed.

(** Once the range has two elements, every element goes through the
    comparator, and a name missing from the sorted output names sets the
    status. *)
Lemma insertion_sort_detects_absent (m : CoreOpMetadata) (rest : list hailo_vstream_info_t) :
  forall sorted st,
    sorted <> [] ->
    existsb (name_absent m) rest = true ->
    snd (insertion_sort_from (output_order_comp m) sorted rest st) = HAILO_INTERNAL_FAILURE.
Proof.
  induction rest as [|x rest IH]; intros sorted st Hne Habs; [discriminate|].
  destruct sorted as [|first sorted]; [contradiction|].
  destruct (name_absent m x) eqn:Ex.
  - apply insertion_step_absent. now rewrite Ex.
  - cbn [existsb] in Habs. rewrite Ex in Habs. cbn [orb] in Habs.
    cbn [insertion_sort_from].
    destruct (output_order_comp m x first st) as [less st'].
    destruct less; [apply IH; [discriminate|exact Habs]|].
    pose proof (linear_insert_not_empty m x (rev (first :: sorted)) [] st') as H.
    destruct (unguarded_linear_insert _ x (rev (first :: sorted)) [] st') as [sorted' st''].
    simpl in H. now apply IH.
Qed.

Lemma std_sort_detects_absent (m : CoreOpMetadata) (res : list hailo_vstream_info_t) :
  2 <= List.length res ->
  existsb (name_absent m) res = true ->
  snd (std_sort (output_order_comp m) res HAILO_SUCCESS) = HAILO_INTERNAL_FAILURE.
Proof.
  destruct res as [|first [|second rest]]; cbn [List.length]; try lia. intros _ Habs.
  unfold std_sort.
  destruct (name_absent m first) eqn:E.
  - apply insertion_step_absent. rewrite E. apply orb_true_r.
  - cbn [existsb] in Habs. rewrite E in Habs.
    apply insertion_sort_detects_absent; [discriminate|exact Habs].
Qed.

(** With two or more descriptors, one of them of a name missing from the
    sorted output names, [get_output_vstream_infos] fails with
    InternalFailure. *)
Lemma get_output_vstream_infos_detects_absent (get_network_name : string -> string)
    (conv : LayerInfo -> list hailo_vstream_info_t) (m : CoreOpMetadata) (net : string)
    (layers : list LayerInfo) :
  hailo_net_flow (m_supported_features m) = false ->
  get_output_layer_infos_of get_network_name m net = Ok layers ->
  2 <= List.length (convert_layer_infos_to_vstream_infos conv layers) ->
  existsb (name_absent m) (convert_layer_infos_to_vstream_infos conv layers) = true ->
  get_output_vstream_infos get_network_name conv m net = Unexpected HAILO_INTERNAL_FAILURE.
Proof.
  intros Hflow Hlayers Hlen Habs. unfold get_output_vstream_infos.
  rewrite Hflow, Hlayers. simpl.
  pose proof (std_sort_detects_absent m _ Hlen Habs) as H.
  destruct (std_sort (output_order_comp m) _ HAILO_SUCCESS) as [res status].
  simpl in H. now subst status.
Qed.

Lemma output_order_comp_present (m : CoreOpMetadata) (info1 info2 : hailo_vstream_info_t)
    (status : hailo_status) :
  name_absent m info1 = false -> name_absent m info2 = false ->
  output_order_comp m info1 info2 status
  = (Nat.ltb (output_index m info1) (output_index m info2), status).
Proof.
  unfold output_order_comp, name_absent, output_index. now intros -> ->.
Qed.

Lemma StronglySorted_app {T : Type} (R : T -> T -> Prop) (l1 l2 : list T) :
  StronglySorted R (l1 ++ l2)
  <-> StronglySorted R l1 /\ StronglySorted R l2
      /\ (forall a b, In a l1 -> In b l2 -> R a b).
Proof.
  induction l1 as [|x l1 IH]; simpl.
  - split; [intros H; repeat split; [constructor|exact H|contradiction]|tauto].
  - split.
    + intros H. apply StronglySorted_inv in H. destruct H as [Hs Hall].
      apply IH in Hs. destruct Hs as [H1 [H2 H3]].
      rewrite Forall_app in Hall. destruct Hall as [Ha1 Ha2].
      rewrite Forall_forall in Ha2.
      repeat split; [now constructor|exact H2|].
      intros a b [->|Ha] Hb; [now apply Ha2|now apply H3].
    + intros [H1 [H2 H3]]. apply StronglySorted_inv in H1. destruct H1 as [H1 Hall].
      constructor.
      * apply IH. repeat split; [exact H1|exact H2|]. intros a b Ha Hb. apply H3; tauto.
      * rewrite Forall_app. split; [exact Hall|].
        apply Forall_forall. intros b Hb. apply H3; tauto.
Qed.

(** [__unguarded_linear_insert] on descriptors whose names are all present:
    the status is left alone, and a sorted range with the hole stays sorted
    once the value is put down. *)
Lemma linear_insert_sorted (m : CoreOpMetadata) (val : hailo_vstream_info_t)
    (before : list hailo_vstream_info_t) :
  forall after st,
    name_absent m val = false ->
    Forall (fun info => name_absent m info = false) before ->
    StronglySorted (by_output_index m) (rev before ++ after) ->
    Forall (fun info => output_index m val < output_index m info) after ->
    exists sorted',
      unguarded_linear_insert (output_order_comp m) val before after st = (sorted', st)
      /\ StronglySorted (by_output_index m) sorted'
      /\ Permutation sorted' (val :: rev before ++ after).
Proof.
  induction before as [|next before IH]; intros after st Hval Hbefore Hsorted Hafter.
  - exists (val :: after). simpl in *. repeat split; [|reflexivity].
    constructor; [exact Hsorted|].
    revert Hafter. apply Forall_impl. intros a Ha. unfold by_output_index. lia.
  - inversion Hbefore as [|? ? Hnext Hbefore']; subst.
    cbn [unguarded_linear_insert].
    rewrite (output_order_comp_present m val next st Hval Hnext).
    simpl rev in Hsorted. rewrite <- app_assoc in Hsorted. simpl in Hsorted.
    destruct (Nat.ltb (output_index m val) (output_index m next)) eqn:E.
    + apply Nat.ltb_lt in E.
      destruct (IH (next :: after) st Hval Hbefore' Hsorted) as [sorted' [H1 [H2 H3]]].
      { now constructor. }
      exists sorted'. repeat split; [exact H1|exact H2|].
      rewrite H3. simpl rev. now rewrite <- app_assoc.
    + apply Nat.ltb_ge in E.
      exists (rev (next :: before) ++ val :: after). repeat split.
      * simpl rev. rewrite <- app_assoc. simpl.
        apply StronglySorted_app in Hsorted. destruct Hsorted as [H1 [H2 H3]].
        apply StronglySorted_inv in H2. destruct H2 as [H2 Hall].
        apply StronglySorted_app. repeat split; [exact H1| |].
        -- constructor; [constructor; [exact H2|]|].
           ++ revert Hafter. apply Forall_impl. intros a Ha. unfold by_output_index. lia.
           ++ constructor; [exact E|exact Hall].
        -- intros a b Ha [<-|[<-|Hb]].
           ++ apply H3; [exact Ha|now left].
           ++ assert (Hn : by_output_index m a next) by (apply H3; [exact Ha|now left]).
              unfold by_output_index in *. lia.
           ++ apply H3; [exact Ha|now right].
      * symmetry. apply Permutation_cons_app. reflexivity.
Qed.

(** The insertion loop on descriptors whose names are all present. *)
Lemma insertion_sort_sorted (m : CoreOpMetadata) (rest : list hailo_vstream_info_t) :
  forall sorted st,
    Forall (fun info => name_absent m info = false) (sorted ++ rest) ->
    StronglySorted (by_output_index m) sorted ->
    exists res,
      insertion_sort_from (output_order_comp m) sorted rest st = (res, st)
      /\ StronglySorted (by_output_index m) res
      /\ Permutation res (sorted ++ rest).
Proof.
  induction rest as [|x rest IH]; intros sorted st Hall Hsorted.
  - exists sorted. simpl. rewrite app_nil_r. now repeat split.
  - cbn [insertion_sort_from].
    assert (Hx : name_absent m x = false).
    { rewrite Forall_app in Hall. destruct Hall as [_ Hall]. now inversion Hall. }
    destruct sorted as [|first sorted].
    + destruct (IH [x] st) as [res [H1 [H2 H3]]]; [exact Hall|repeat constructor|].
      exists res. now repeat split.
    + assert (Hfirst : name_absent m first = false) by now inversion Hall.
      rewrite (output_order_comp_present m x first st Hx Hfirst).
      destruct (Nat.ltb (output_index m x) (output_index m first)) eqn:E.
      * apply Nat.ltb_lt in E.
        destruct (IH (x :: first :: sorted) st) as [res [H1 [H2 H3]]].
        -- rewrite Forall_app in Hall |- *. destruct Hall as [Ha Hb].
           inversion Hb; subst. split; [now constructor|assumption].
        -- constructor; [exact Hsorted|].
           apply StronglySorted_inv in Hsorted. destruct Hsorted as [_ Hle].
           constructor; [unfold by_output_index; lia|].
           revert Hle. apply Forall_impl. intros a Ha. unfold by_output_index in *. lia.
        -- exists res. repeat split; [exact H1|exact H2|].
           rewrite H3.
           apply (Permutation_cons_app (first :: sorted) rest x). reflexivity.
      * destruct (linear_insert_sorted m x (rev (first :: sorted)) [] st Hx)
          as [sorted' [H1 [H2 H3]]].
        -- apply Forall_rev. rewrite Forall_app in Hall. tauto.
        -- now rewrite rev_involutive, app_nil_r.
        -- constructor.
        -- rewrite H1. rewrite rev_involutive, app_nil_r in H3.
           destruct (IH sorted' st) as [res [H4 [H5 H6]]]; [|exact H2|].
           ++ rewrite Forall_app in Hall |- *. destruct Hall as [Ha Hb].
              inversion Hb; subst. split; [|assumption].
              apply (Permutation_Forall (x := x :: first :: sorted));
                [now symmetry|]. constructor; [exact Hx|exact Ha].
           ++ exists res. repeat split; [exact H4|exact H5|].
              rewrite H6, H3.
              apply (Permutation_cons_app (first :: sorted) rest x). reflexivity.
Qed.

(** When the name of every derived descriptor is among the sorted output
    names, [get_output_vstream_infos] returns the derived descriptors
    rearranged in the order of their names' positions in that list. *)
Lemma get_output_vstream_infos_ordered (get_network_name : string -> string)
    (conv : LayerInfo -> list hailo_vstream_info_t) (m : CoreOpMetadata) (net : string)
    (layers : list LayerInfo) :
  hailo_net_flow (m_supported_features m) = false ->
  get_output_layer_infos_of get_network_name m net = Ok layers ->
  Forall (fun info => name_absent m info = false)
    (convert_layer_infos_to_vstream_infos conv layers) ->
  exists res,
    get_output_vstream_infos get_network_name conv m net = Ok res
    /\ StronglySorted (by_output_index m) res
    /\ Permutation res (convert_layer_infos_to_vstream_infos conv layers).
Proof.
  intros Hflow Hlayers Hall. unfold get_output_vstream_infos.
  rewrite Hflow, Hlayers. simpl.
  destruct (convert_layer_infos_to_vstream_infos conv layers) as [|first rest].
  - exists []. repeat split; constructor.
  - unfold std_sort.
    destruct (insertion_sort_sorted m rest [first] HAILO_SUCCESS Hall) as [res [H1 [H2 H3]]].
    { repeat constructor. }
    rewrite H1. exists res. now repeat split.
Qed.

(** C1 at a model with one output layer: the vstream name ["out0"] is not
    among the sorted output names, the comparator is never called on the
    one-element range, and [get_output_vstream_infos] returns the list as a
    success where InternalFailure is due. *)
Theorem get_output_vstream_infos_single_absent_name :
  let m := single_context_model false ["conv1"]
             [leaf_layer "out0" HAILO_D2H_STREAM "net0"] in
  hailo_net_flow (m_supported_features m) = false
  /\ ~ In "out0" (m_sorted_output_names m)
  /\ get_output_vstream_infos sample_network_name sample_vstream_infos m ""
     = Ok [mkVStreamInfo "out0" "net0" HAILO_D2H_STREAM].
Proof.
  split; [reflexivity|]. split; [|reflexivity].
  simpl. intros [H|[]]. discriminate H.
Qed.

(** With a second output layer the same missing name is reported. *)
Example get_output_vstream_infos_two_absent_name :
  let m := single_context_model false ["conv1"]
             [leaf_layer "out0" HAILO_D2H_STREAM "net0";
              leaf_layer "conv1" HAILO_D2H_STREAM "net0"] in
  get_output_vstream_infos sample_network_name sample_vstream_infos m ""
  = Unexpected HAILO_INTERNAL_FAILURE.
Proof. reflexivity. Qed.

(** With every name present the descriptors come back in the order of the
    sorted output names. *)
Example get_output_vstream_infos_sorted :
  let m := single_context_model false ["c"; "a"; "b"]
             [leaf_layer "a" HAILO_D2H_STREAM "net0";
              leaf_layer "b" HAILO_D2H_STREAM "net0";
              leaf_layer "c" HAILO_D2H_STREAM "net0"] in
  get_output_vstream_infos sample_network_name sample_vstream_infos m ""
  = Ok [mkVStreamInfo "c" "net0" HAILO_D2H_STREAM;
        mkVStreamInfo "a" "net0" HAILO_D2H_STREAM;
        mkVStreamInfo "b" "net0" HAILO_D2H_STREAM].
Proof. reflexivity. Qed.

(** ** Transfer sizes *)

Lemma to_size_t_idem (a : Z) : to_size_t (to_size_t a) = to_size_t a.
Proof. unfold to_size_t. apply Z.mod_mod. discriminate. Qed.

Lemma to_size_t_add_l (a b : Z) : to_size_t (to_size_t a + b) = to_size_t (a + b).
Proof. unfold to_size_t. apply Zplus_mod_idemp_l. Qed.

Lemma to_size_t_add_r (a b : Z) : to_size_t (a + to_size_t b) = to_size_t (a + b).
Proof. unfold to_size_t. apply Zplus_mod_idemp_r. Qed.

Lemma to_size_t_add_m (a b c : Z) : to_size_t (a + to_size_t b + c) = to_size_t (a + b + c).
Proof.
  rewrite <- (to_size_t_add_l (a + to_size_t b)), to_size_t_add_r.
  apply to_size_t_add_l.
Qed.

Lemma to_size_t_eq_add (a a' b b' : Z) :
  to_size_t a = to_size_t a' -> to_size_t b = to_size_t b' ->
  to_size_t (a + b) = to_size_t (a' + b').
Proof.
  intros Ha Hb.
  rewrite <- (to_size_t_add_l a), <- (to_size_t_add_r _ b), Ha, Hb.
  now rewrite to_size_t_add_l, to_size_t_add_r.
Qed.

Lemma to_size_t_through (a b c : Z) :
  to_size_t a = to_size_t b -> to_size_t b = c -> to_size_t a = c.
Proof. congruence. Qed.

(** Reductions to the width of [size_t] inside a sum that is itself reduced
    can be dropped. *)
Ltac size_t_erase :=
  lazymatch goal with
  | |- to_size_t (to_size_t ?a) = to_size_t _ => rewrite (to_size_t_idem a); size_t_erase
  | |- to_size_t (?a + ?b) = to_size_t _ => eapply to_size_t_eq_add; size_t_erase
  | |- _ => reflexivity
  end.

Lemma Zsum_app (l1 l2 : list Z) : Zsum (l1 ++ l2) = (Zsum l1 + Zsum l2)%Z.
Proof. unfold Zsum. induction l1 as [|x l1 IH]; simpl; [reflexivity|]. rewrite IH. lia. Qed.

Lemma Zsum_nonneg (l : list Z) :
  Forall (fun size => (0 <= size < UINT_MAX_plus_1)%Z) l -> (0 <= Zsum l)%Z.
Proof. unfold Zsum. induction 1 as [|x l Hx _ IH]; simpl; lia. Qed.

Lemma int_add_uint32_small (init x : Z) :
  (0 <= init)%Z -> (0 <= x)%Z -> (init + x < INT_MAX_plus_1)%Z ->
  int_add_uint32 init x = (init + x)%Z.
Proof.
  intros Hi Hx Hlt. unfold int_add_uint32, to_int, to_unsigned_int.
  unfold INT_MAX_plus_1, UINT_MAX_plus_1 in *.
  rewrite (Z.mod_small init), (Z.mod_small x), (Z.mod_small (init + x)) by lia.
  destruct (init + x <? 2 ^ 31)%Z eqn:E; [reflexivity|].
  apply Z.ltb_ge in E. lia.
Qed.

(** While the running sum stays below [INT_MAX + 1], [std::accumulate] gives
    the sum of the sizes. *)
Lemma accumulate_int_sum (sizes : list Z) :
  forall init,
    (0 <= init)%Z ->
    Forall (fun size => (0 <= size < UINT_MAX_plus_1)%Z) sizes ->
    (init + Zsum sizes < INT_MAX_plus_1)%Z ->
    accumulate_int sizes init = (init + Zsum sizes)%Z.
Proof.
  unfold accumulate_int.
  induction sizes as [|x sizes IH]; intros init Hi Hall Hlt; simpl in *; [lia|].
  inversion Hall as [|? ? Hx Hall']; subst.
  pose proof (Zsum_nonneg sizes Hall') as Hs.
  rewrite int_add_uint32_small by lia.
  rewrite IH by (try assumption; lia). lia.
Qed.

Lemma config_buffers_size_sum (config_buffers_info : ConfigBufferInfoMap) :
  forall total,
    Forall (fun buffer => buffer_fits_int (snd buffer)) config_buffers_info ->
    to_size_t total = total ->
    config_buffers_size config_buffers_info total
    = to_size_t (total + Zsum (flat_map snd config_buffers_info)).
Proof.
  unfold config_buffers_size.
  induction config_buffers_info as [|[id sizes] rest IH]; intros total Hall Htotal; simpl.
  - unfold Zsum. simpl. now rewrite Z.add_0_r.
  - inversion Hall as [|? ? [Hsizes Hlt] Hall']; subst. simpl in *.
    rewrite IH; [|assumption|apply to_size_t_idem].
    rewrite accumulate_int_sum by (try assumption; lia).
    unfold size_t_add. cbn [snd]. rewrite Z.add_0_l.
    rewrite to_size_t_add_l, to_size_t_add_m, Zsum_app. f_equal. lia.
Qed.

Lemma layers_transfer_size_from_sum (get_transfer_size : LayerInfo -> Expected Z)
    (layer_infos : list LayerInfo) :
  forall total,
    to_size_t total = total ->
    layers_transfer_size_from get_transfer_size layer_infos total
    = as_size_t (bindE (sum_transfer_sizes get_transfer_size layer_infos)
                   (fun sizes => Ok (total + sizes)%Z)).
Proof.
  induction layer_infos as [|l rest IH]; intros total Htotal; simpl.
  - rewrite Z.add_0_r. now rewrite Htotal.
  - destruct (get_transfer_size l) as [size|status]; simpl; [|reflexivity].
    rewrite IH by apply to_size_t_idem.
    destruct (sum_transfer_sizes get_transfer_size rest) as [sizes|status]; simpl;
      [|reflexivity].
    unfold size_t_add. rewrite to_size_t_add_l. do 2 f_equal. lia.
Qed.

Lemma get_layers_transfer_size_sum (get_transfer_size : LayerInfo -> Expected Z)
    (layer_infos : list LayerInfo) :
  get_layers_transfer_size get_transfer_size layer_infos
  = as_size_t (sum_transfer_sizes get_transfer_size layer_infos).
Proof.
  unfold get_layers_transfer_size. rewrite layers_transfer_size_from_sum by reflexivity.
  now destruct (sum_transfer_sizes get_transfer_size layer_infos).
Qed.

Lemma sum_transfer_sizes_app (get_transfer_size : LayerInfo -> Expected Z)
    (l1 l2 : list LayerInfo) :
  sum_transfer_sizes get_transfer_size (l1 ++ l2)
  = bindE (sum_transfer_sizes get_transfer_size l1)
      (fun s1 => bindE (sum_transfer_sizes get_transfer_size l2)
                   (fun s2 => Ok (s1 + s2)%Z)).
Proof.
  induction l1 as [|l l1 IH]; simpl.
  - now destruct (sum_transfer_sizes get_transfer_size l2).
  - destruct (get_transfer_size l) as [size|status]; simpl; [|reflexivity].
    rewrite IH.
    destruct (sum_transfer_sizes get_transfer_size l1) as [s1|status]; simpl; [|reflexivity].
    destruct (sum_transfer_sizes get_transfer_size l2) as [s2|status]; simpl; [|reflexivity].
    f_equal. lia.
Qed.

Lemma get_context_transfer_size_sum (get_transfer_size : LayerInfo -> Expected Z)
    (c : ContextMetadata) :
  config_buffers_fit_int c ->
  get_context_transfer_size get_transfer_size c
  = as_size_t (context_transfer_size_spec get_transfer_size c).
Proof.
  intros Hfit.
  unfold get_context_transfer_size, context_transfer_size_spec, all_edge_layers,
    all_config_buffer_sizes.
  rewrite (config_buffers_size_sum _ 0%Z Hfit eq_refl).
  rewrite !get_layers_transfer_size_sum, !sum_transfer_sizes_app.
  destruct (sum_transfer_sizes _ (m_boundary_input_layers c)); simpl; [|reflexivity].
  destruct (sum_transfer_sizes _ (m_boundary_output_layers c)); simpl; [|reflexivity].
  destruct (sum_transfer_sizes _ (m_ddr_input_layers c)); simpl; [|reflexivity].
  destruct (sum_transfer_sizes _ (m_ddr_output_layers c)); simpl; [|reflexivity].
  destruct (sum_transfer_sizes _ (m_inter_context_input_layers c)); simpl; [|reflexivity].
  destruct (sum_transfer_sizes _ (m_inter_context_output_layers c)); simpl; [|reflexivity].
  unfold size_t_add. f_equal.
  eapply to_size_t_through; [size_t_erase|]. f_equal. lia.
Qed.

Lemma total_transfer_size_from_sum (get_transfer_size : LayerInfo -> Expected Z)
    (contexts : list ContextMetadata) :
  Forall config_buffers_fit_int contexts ->
  forall total,
    to_size_t total = total ->
    total_transfer_size_from get_transfer_size contexts total
    = as_size_t (bindE (total_transfer_size_spec get_transfer_size contexts)
                   (fun sizes => Ok (total + sizes)%Z)).
Proof.
  induction 1 as [|c rest Hc _ IH]; intros total Htotal; simpl.
  - rewrite Z.add_0_r. now rewrite Htotal.
  - rewrite get_context_transfer_size_sum by assumption.
    destruct (context_transfer_size_spec get_transfer_size c) as [size|status]; simpl;
      [|reflexivity].
    rewrite IH by apply to_size_t_idem.
    destruct (total_transfer_size_spec get_transfer_size rest) as [sizes|status]; simpl;
      [|reflexivity].
    unfold size_t_add. rewrite to_size_t_add_r, to_size_t_add_l. do 2 f_equal. lia.
Qed.

(** As long as the sizes of each config buffer sum to less than
    [INT_MAX + 1], [get_total_transfer_size] is the sum, in [size_t], over the
    dynamic contexts of the config-buffer sizes and the per-layer transfer
    sizes of the six lists, and the failure of the first layer in scan order
    whose size is not available. *)
Lemma get_total_transfer_size_sum (get_transfer_size : LayerInfo -> Expected Z)
    (m : CoreOpMetadata) :
  Forall config_buffers_fit_int (m_dynamic_contexts m) ->
  get_total_transfer_size get_transfer_size m
  = as_size_t (total_transfer_size_spec get_transfer_size (m_dynamic_contexts m)).
Proof.
  intros Hfit. unfold get_total_transfer_size.
  rewrite total_transfer_size_from_sum by (try assumption; reflexivity).
  now destruct (total_transfer_size_spec get_transfer_size (m_dynamic_contexts m)).
Qed.

(** C4 at a context with one config buffer written once with [2^31] bytes:
    the sum of the config-buffer sizes is [2^31], while [std::accumulate],
    started from the [int] literal [0], returns a negative [int] that the
    addition to the [size_t] total sign-extends. *)
Theorem get_total_transfer_size_int_accumulator :
  let m := config_only_model [(0%Z, [2147483648%Z])] in
  total_transfer_size_spec sample_transfer_size (m_dynamic_contexts m) = Ok 2147483648%Z
  /\ get_total_transfer_size sample_transfer_size m = Ok 18446744071562067968%Z.
Proof. split; vm_compute; reflexivity. Qed.

(** ** The theorems at concrete models *)

Lemma sample_model_fused_layers (net_flow : bool) :
  Forall fused_layer_present (get_all_layer_infos (sample_model net_flow)).
Proof.
  vm_compute get_all_layer_infos.
  repeat (apply Forall_cons;
          [unfold fused_layer_present; simpl; intros H; first [discriminate H|discriminate]|]).
  apply Forall_nil.
Qed.

(** The bounds theorem at the sample model, queried for a defused-NMS
    fragment. *)
Lemma fused_nms_layer_front_in_bounds_witness :
  Forall fused_layer_present (get_all_layer_infos (sample_model false))
  /\ (exists r, get_vstream_names_from_stream_name (sample_model false) "nms_frag1" = Returns r)
  /\ (exists r, get_stream_names_from_vstream_name (sample_model false) "nms_frag1" = Returns r).
Proof.
  split; [apply sample_model_fused_layers|].
  apply (fused_nms_layer_front_in_bounds (sample_model false) "nms_frag1").
  apply sample_model_fused_layers.
Defined.

(** The contributions at the sample model with net flow set, queried for the
    fused NMS name: both fragments, and the plain output layer, but neither
    the input layer nor the mux layer. *)
Lemma get_stream_names_from_vstream_name_contributions_witness :
  Forall fused_layer_present (get_all_layer_infos (sample_model true))
  /\ get_stream_names_from_vstream_name (sample_model true) "nms"
     = Returns (Ok ["nms_frag0"; "nms_frag1"; "out1"]).
Proof.
  split; [apply sample_model_fused_layers|].
  exact (proj1 (get_stream_names_from_vstream_name_contributions (sample_model true) "nms"
                  (sample_model_fused_layers true))).
Defined.

(** Two fragments of the fused layer ["nms"] give one descriptor. *)
Lemma convert_layer_infos_to_vstream_infos_dedup_witness :
  let fragments :=
    [defused_layer "nms_frag0" HAILO_D2H_STREAM "net0" [leaf_layer "nms" HAILO_D2H_STREAM "net0"];
     defused_layer "nms_frag1" HAILO_D2H_STREAM "net0" [leaf_layer "nms" HAILO_D2H_STREAM "net0"]] in
  fragments <> []
  /\ Forall (fun layer_info => In "nms" (map vs_name (sample_vstream_infos layer_info)))
       fragments
  /\ List.length
       (named "nms" (convert_layer_infos_to_vstream_infos sample_vstream_infos fragments)) = 1.
Proof.
  intros fragments.
  assert (Hne : fragments <> []) by discriminate.
  assert (Hall : Forall (fun layer_info =>
                           In "nms" (map vs_name (sample_vstream_infos layer_info)))
                   fragments).
  { repeat (apply Forall_cons; [simpl; now left|]). apply Forall_nil. }
  split; [exact Hne|]. split; [exact Hall|].
  exact (proj2 (proj2 (proj2
           (convert_layer_infos_to_vstream_infos_dedup sample_vstream_infos fragments)))
           "nms" Hne Hall).
Defined.

(** The lookups after [add_metadata(meta1, 7)] and [add_metadata(meta2, 3)]. *)
Lemma get_metadata_after_calls_witness :
  let calls := [(named_variant "meta1", 7%Z); (named_variant "meta2", 3%Z)] in
  (9%Z <> 4294967295%Z /\ calls <> [])
  /\ get_metadata 4294967295 (add_all calls []) 9 = Returns (Unexpected HAILO_INTERNAL_FAILURE)
  /\ exists least stored,
       last_added calls least = Some stored
       /\ (forall call, In call calls -> (least <= snd call)%Z)
       /\ get_metadata 4294967295 (add_all calls []) 4294967295 = Returns (Ok stored).
Proof.
  intros calls.
  assert (Hkey : 9%Z <> 4294967295%Z) by discriminate.
  assert (Hne : calls <> []) by discriminate.
  split; [now split|].
  destruct (get_metadata_after_calls 4294967295 calls 9) as [Hconcrete [Hsentinel _]].
  split; [exact (Hconcrete Hkey)|exact (Hsentinel Hne)].
Defined.

(** * Further properties of the queries *)

(** ** Building a context *)

Lemma Permutation_add_in {T : Type} (A B : list T) (x : T) :
  Permutation ((A ++ [x]) ++ B) (x :: A ++ B).
Proof. rewrite <- app_assoc. simpl. symmetry. apply Permutation_middle. Qed.

Lemma Permutation_add_last {T : Type} (A : list T) (x : T) :
  Permutation (A ++ [x]) (x :: A).
Proof. symmetry. apply Permutation_cons_append. Qed.

Lemma Permutation_add_under {T : Type} (A X Y : list T) (x : T) :
  Permutation X (x :: Y) -> Permutation (A ++ X) (x :: A ++ Y).
Proof.
  intros H. rewrite H. symmetry. apply Permutation_middle.
Qed.

Ltac context_fields :=
  cbn [m_actions m_config_buffers_info m_boundary_input_layers m_boundary_output_layers
       m_inter_context_input_layers m_inter_context_output_layers
       m_ddr_input_layers m_ddr_output_layers].

(** Whichever of the three insertion methods takes a layer, the six
    edge-layer lists taken together gain that layer and nothing else, and the
    actions and the config buffers stay as they were. *)
Theorem add_layer_gains_one (c : ContextMetadata) (layer_info : LayerInfo) :
  (Permutation (all_edge_layers (add_boundary_layer c layer_info))
     (layer_info :: all_edge_layers c)
   /\ Permutation (all_edge_layers (add_inter_context_layer c layer_info))
        (layer_info :: all_edge_layers c)
   /\ Permutation (all_edge_layers (add_ddr_layer c layer_info))
        (layer_info :: all_edge_layers c))
  /\ (m_actions (add_boundary_layer c layer_info) = m_actions c
      /\ m_actions (add_inter_context_layer c layer_info) = m_actions c
      /\ m_actions (add_ddr_layer c layer_info) = m_actions c)
  /\ (m_config_buffers_info (add_boundary_layer c layer_info) = m_config_buffers_info c
      /\ m_config_buffers_info (add_inter_context_layer c layer_info)
         = m_config_buffers_info c
      /\ m_config_buffers_info (add_ddr_layer c layer_info) = m_config_buffers_info c).
Proof.
  unfold add_boundary_layer, add_inter_context_layer, add_ddr_layer, all_edge_layers.
  destruct (direction_eqb HAILO_H2D_STREAM (direction layer_info)); context_fields;
    repeat split;
    repeat first [apply Permutation_add_in | apply Permutation_add_last
                 | apply Permutation_add_under].
Qed.

Lemma layers_transfer_size_from_snoc (get_transfer_size : LayerInfo -> Expected Z)
    (layer_infos : list LayerInfo) (layer_info : LayerInfo) :
  forall total,
    layers_transfer_size_from get_transfer_size (layer_infos ++ [layer_info]) total
    = bindE (layers_transfer_size_from get_transfer_size layer_infos total)
        (fun before =>
           bindE (get_transfer_size layer_info) (fun size => Ok (size_t_add before size))).
Proof.
  induction layer_infos as [|l rest IH]; intros total; simpl; [reflexivity|].
  destruct (get_transfer_size l) as [size|status]; simpl; [apply IH|reflexivity].
Qed.

Ltac size_t_eq :=
  unfold size_t_add;
  eapply to_size_t_through; [size_t_erase|];
  symmetry; eapply to_size_t_through; [size_t_erase|];
  f_equal; lia.

(** When the transfer size of a context and of a layer are both available,
    adding the layer through any of the three insertion methods raises the
    context transfer size by the size of the layer, in [size_t]
    arithmetic. *)
Theorem add_layer_adds_transfer_size (get_transfer_size : LayerInfo -> Expected Z)
    (c : ContextMetadata) (layer_info : LayerInfo) (size before : Z)
    (Hsize : get_transfer_size layer_info = Ok size)
    (Hbefore : get_context_transfer_size get_transfer_size c = Ok before) :
  get_context_transfer_size get_transfer_size (add_boundary_layer c layer_info)
    = Ok (size_t_add before size)
  /\ get_context_transfer_size get_transfer_size (add_inter_context_layer c layer_info)
     = Ok (size_t_add before size)
  /\ get_context_transfer_size get_transfer_size (add_ddr_layer c layer_info)
     = Ok (size_t_add before size).
Proof.
  unfold get_context_transfer_size, get_layers_transfer_size in *.
  destruct (layers_transfer_size_from _ (m_boundary_input_layers c) 0) as [bi|] eqn:Ebi;
    simpl in Hbefore; [|discriminate].
  destruct (layers_transfer_size_from _ (m_boundary_output_layers c) 0) as [bo|] eqn:Ebo;
    simpl in Hbefore; [|discriminate].
  destruct (layers_transfer_size_from _ (m_ddr_input_layers c) 0) as [di|] eqn:Edi;
    simpl in Hbefore; [|discriminate].
  destruct (layers_transfer_size_from _ (m_ddr_output_layers c) 0) as [do|] eqn:Edo;
    simpl in Hbefore; [|discriminate].
  destruct (layers_transfer_size_from _ (m_inter_context_input_layers c) 0) as [ii|] eqn:Eii;
    simpl in Hbefore; [|discriminate].
  destruct (layers_transfer_size_from _ (m_inter_context_output_layers c) 0) as [io|] eqn:Eio;
    simpl in Hbefore; [|discriminate].
  injection Hbefore as <-.
  unfold add_boundary_layer, add_inter_context_layer, add_ddr_layer.
  destruct (direction_eqb HAILO_H2D_STREAM (direction layer_info)); context_fields;
    repeat split;
    rewrite ?layers_transfer_size_from_snoc, ?Ebi, ?Ebo, ?Edi, ?Edo, ?Eii, ?Eio;
    cbn [bindE]; rewrite ?Hsize; cbn [bindE]; f_equal; size_t_eq.
Qed.

(** A DDR output layer of 4096 bytes added to a context of 48 config bytes
    and one boundary input layer. *)
Lemma add_layer_adds_transfer_size_witness :
  let c := add_boundary_layer (ContextMetadata_new [] [(0%Z, [16%Z; 32%Z])])
             (leaf_layer "in0" HAILO_H2D_STREAM "net0") in
  let ddr0 := leaf_layer "ddr0" HAILO_D2H_STREAM "net0" in
  (sample_transfer_size ddr0 = Ok 4096%Z
   /\ get_context_transfer_size sample_transfer_size c = Ok 4144%Z)
  /\ get_context_transfer_size sample_transfer_size (add_ddr_layer c ddr0) = Ok 8240%Z.
Proof.
  intros c ddr0.
  assert (Hsize : sample_transfer_size ddr0 = Ok 4096%Z) by reflexivity.
  assert (Hbefore : get_context_transfer_size sample_transfer_size c = Ok 4144%Z)
    by reflexivity.
  split; [now split|].
  exact (proj2 (proj2
           (add_layer_adds_transfer_size sample_transfer_size c ddr0 4096 4144 Hsize Hbefore))).
Defined.

(** The total of the sample model with sizes: one dynamic context of 48
    config bytes and two layers; the preliminary context does not count. *)
Lemma get_total_transfer_size_sum_witness :
  Forall config_buffers_fit_int (m_dynamic_contexts sample_sized_model)
  /\ get_total_transfer_size sample_transfer_size sample_sized_model = Ok 8240%Z.
Proof.
  assert (Hfit : Forall config_buffers_fit_int (m_dynamic_contexts sample_sized_model)).
  { repeat constructor; vm_compute; congruence. }
  split; [exact Hfit|].
  exact (get_total_transfer_size_sum sample_transfer_size sample_sized_model Hfit).
Defined.

(** ** Looking layers up by name *)

Lemma find_first {T : Type} (f : T -> bool) (l : list T) :
  match find f l with
  | Some x =>
      exists before after,
        l = before ++ x :: after /\ f x = true /\ Forall (fun y => f y = false) before
  | None => Forall (fun y => f y = false) l
  end.
Proof.
  induction l as [|y l IH]; simpl; [constructor|].
  destruct (f y) eqn:Ey.
  - exists [], l. repeat split; [exact Ey|constructor].
  - destruct (find f l) as [x|].
    + destruct IH as [before [after [-> [Hx Hall]]]].
      exists (y :: before), after. repeat split; [exact Hx|now constructor].
    + now constructor.
Qed.

(** [get_layer_info_by_stream_name] returns the first boundary layer of that
    name, the input layers of all dynamic contexts coming before the output
    layers; it fails, with NotFound and nothing else, exactly when no
    boundary layer has the name. *)
Theorem get_layer_info_by_stream_name_first (m : CoreOpMetadata) (stream_name : string) :
  match get_layer_info_by_stream_name m stream_name with
  | Ok layer_info =>
      exists before after,
        get_all_layer_infos m = before ++ layer_info :: after
        /\ name layer_info = stream_name
        /\ Forall (fun other => name other <> stream_name) before
  | Unexpected status =>
      status = HAILO_NOT_FOUND
      /\ Forall (fun other => name other <> stream_name) (get_all_layer_infos m)
  end.
Proof.
  unfold get_layer_info_by_stream_name.
  pose proof (find_first (fun layer_info => String.eqb (name layer_info) stream_name)
                (get_all_layer_infos m)) as H.
  destruct (find _ (get_all_layer_infos m)) as [l|].
  - destruct H as [before [after [Heq [Hl Hall]]]].
    exists before, after. repeat split; [exact Heq|now apply String.eqb_eq|].
    revert Hall. apply Forall_impl. intros a Ha. now apply String.eqb_neq.
  - split; [reflexivity|].
    revert H. apply Forall_impl. intros a Ha. now apply String.eqb_neq.
Qed.

Lemma vstream_names_scan_find (layers : list LayerInfo) (stream_name : string) :
  vstream_names_scan layers stream_name
  = match find (fun layer_info => String.eqb (name layer_info) stream_name) layers with
    | Some layer_info => vstream_names_of_layer layer_info
    | None => Returns (Unexpected HAILO_NOT_FOUND)
    end.
Proof.
  induction layers as [|l layers IH]; simpl; [reflexivity|].
  rewrite (String.eqb_sym stream_name (name l)).
  destruct (String.eqb (name l) stream_name); [reflexivity|exact IH].
Qed.

(** [get_vstream_names_from_stream_name] answers for the layer that
    [get_layer_info_by_stream_name] finds: the fused layer's name for a
    defused-NMS layer, the demux names for a mux layer, the layer's own name
    otherwise; and it fails with the same NotFound when there is no such
    layer. *)
Theorem get_vstream_names_from_stream_name_of_layer (m : CoreOpMetadata)
    (stream_name : string) :
  get_vstream_names_from_stream_name m stream_name
  = match get_layer_info_by_stream_name m stream_name with
    | Ok layer_info => vstream_names_of_layer layer_info
    | Unexpected status => Returns (Unexpected status)
    end.
Proof.
  unfold get_vstream_names_from_stream_name, get_layer_info_by_stream_name.
  rewrite vstream_names_scan_find.
  now destruct (find _ (get_all_layer_infos m)).
Qed.

Lemma demux_name_is_edge_under_mux (L : LayerInfo) (edge_name : string) :
  In edge_name (get_demuxes_names L) -> is_edge_under_mux L edge_name = true.
Proof.
  induction L as [n d net mux preds defused fused IH] using LayerInfo_pred_ind.
  rewrite is_edge_under_mux_unfold, get_demuxes_names_unfold. simpl.
  destruct mux.
  - rewrite existsb_exists, in_flat_map. rewrite Forall_forall in IH.
    intros [p [Hin Hp]]. exists p. split; [exact Hin|now apply IH].
  - intros [H|[]]. subst. apply String.eqb_refl.
Qed.

(** From a stream name to its vstream names and back: when every defused-NMS
    layer carries its fused layer and no layer is both mux and defused-NMS,
    each vstream name that [get_vstream_names_from_stream_name] gives for a
    stream leads [get_stream_names_from_vstream_name] back to a result that
    holds that stream. *)
Theorem stream_vstream_round_trip (m : CoreOpMetadata) (stream_name vstream_name : string)
    (vstream_names : list string)
    (Hfused : Forall fused_layer_present (get_all_layer_infos m))
    (Hkind : Forall (fun layer_info =>
                       is_defused_nms layer_info = true -> is_mux layer_info = false)
               (get_all_layer_infos m))
    (Hnames : get_vstream_names_from_stream_name m stream_name = Returns (Ok vstream_names))
    (Hin : In vstream_name vstream_names) :
  exists stream_names,
    get_stream_names_from_vstream_name m vstream_name = Returns (Ok stream_names)
    /\ In stream_name stream_names.
Proof.
  unfold get_vstream_names_from_stream_name in Hnames.
  rewrite vstream_names_scan_find in Hnames.
  destruct (find _ (get_all_layer_infos m)) as [l|] eqn:Efind; [|discriminate].
  apply find_some in Efind. destruct Efind as [Hl Hname].
  apply String.eqb_eq in Hname.
  assert (Hc : contributes (hailo_net_flow (m_supported_features m)) vstream_name l = true).
  { rewrite Forall_forall in Hfused, Hkind.
    specialize (Hfused l Hl). specialize (Hkind l Hl).
    unfold vstream_names_of_layer in Hnames. unfold contributes.
    destruct (is_defused_nms l) eqn:Ed.
    - rewrite (Hkind eq_refl).
      destruct (vector_front_present _ (Hfused Ed)) as [x [rest [Hx Hfront]]].
      rewrite Hfront in Hnames. simpl in Hnames. rewrite Hx.
      injection Hnames as <-. destruct Hin as [<-|[]]. apply String.eqb_refl.
    - destruct (is_mux l).
      + injection Hnames as <-. now apply demux_name_is_edge_under_mux.
      + injection Hnames as <-. destruct Hin as [<-|[]].
        rewrite String.eqb_refl. now destruct (_ && _). }
  unfold get_stream_names_from_vstream_name.
  rewrite (stream_names_scan_filter _ _ _ Hfused). simpl.
  assert (Hres : In stream_name
                   (map name (filter (contributes (hailo_net_flow (m_supported_features m))
                                        vstream_name) (get_all_layer_infos m)))).
  { rewrite <- Hname. apply in_map. apply filter_In. now split. }
  destruct (map name _) as [|first rest] eqn:E; [contradiction|].
  exists (first :: rest). now split.
Qed.

(** The round trip at the sample model: the fragment ["nms_frag1"] names the
    vstream ["nms"], which leads back to both fragments. *)
Lemma stream_vstream_round_trip_witness :
  (Forall fused_layer_present (get_all_layer_infos (sample_model false))
   /\ Forall (fun layer_info =>
                is_defused_nms layer_info = true -> is_mux layer_info = false)
        (get_all_layer_infos (sample_model false))
   /\ get_vstream_names_from_stream_name (sample_model false) "nms_frag1"
      = Returns (Ok ["nms"])
   /\ In "nms" ["nms"])
  /\ exists stream_names,
       get_stream_names_from_vstream_name (sample_model false) "nms" = Returns (Ok stream_names)
       /\ In "nms_frag1" stream_names.
Proof.
  assert (Hkind : Forall (fun layer_info =>
                            is_defused_nms layer_info = true -> is_mux layer_info = false)
                    (get_all_layer_infos (sample_model false))).
  { vm_compute get_all_layer_infos.
    repeat (apply Forall_cons; [simpl; intros H; first [reflexivity|discriminate H]|]).
    apply Forall_nil. }
  assert (Hnames : get_vstream_names_from_stream_name (sample_model false) "nms_frag1"
                   = Returns (Ok ["nms"])) by reflexivity.
  assert (Hin : In "nms" ["nms"]) by (now left).
  split; [repeat split; [apply sample_model_fused_layers|exact Hkind|exact Hin]|].
  exact (stream_vstream_round_trip (sample_model false) "nms_frag1" "nms" ["nms"]
           (sample_model_fused_layers false) Hkind Hnames Hin).
Defined.

(** ** Layers, streams and virtual streams of a network *)

Lemma get_input_layer_infos_of_requested (get_network_name : string -> string)
    (m : CoreOpMetadata) (net : string) :
  get_input_layer_infos_of get_network_name m net
  = not_found_if_empty (requested_input_layers get_network_name m net).
Proof.
  unfold get_input_layer_infos_of, requested_input_layers.
  rewrite check_not_empty, nested_push_back_loop. simpl.
  now rewrite filter_network_matches.
Qed.

Lemma get_output_layer_infos_of_requested (get_network_name : string -> string)
    (m : CoreOpMetadata) (net : string) :
  get_output_layer_infos_of get_network_name m net
  = not_found_if_empty (requested_output_layers get_network_name m net).
Proof.
  unfold get_output_layer_infos_of, requested_output_layers.
  rewrite check_not_empty, nested_push_back_loop. simpl.
  now rewrite filter_network_matches.
Qed.

(** [get_all_layer_infos(network_name)] needs layers on both sides: it
    returns the requested input layers followed by the requested output
    layers when neither list is empty, and fails with NotFound as soon as one
    of them is, whatever the other holds. *)
Theorem get_all_layer_infos_of_both_sides (get_network_name : string -> string)
    (m : CoreOpMetadata) (net : string) :
  get_all_layer_infos_of get_network_name m net
  = match requested_input_layers get_network_name m net,
          requested_output_layers get_network_name m net with
    | _ :: _, _ :: _ =>
        Ok (requested_input_layers get_network_name m net
            ++ requested_output_layers get_network_name m net)
    | _, _ => Unexpected HAILO_NOT_FOUND
    end.
Proof.
  unfold get_all_layer_infos_of.
  rewrite get_input_layer_infos_of_requested, get_output_layer_infos_of_requested.
  destruct (requested_input_layers get_network_name m net); [reflexivity|].
  now destruct (requested_output_layers get_network_name m net).
Qed.

Lemma map_loop {A B : Type} (f : A -> B) (l : list A) :
  forall res, fold_left (fun res x => res ++ [f x]) l res = res ++ map f l.
Proof.
  induction l as [|x l IH]; intros res; simpl.
  - now rewrite app_nil_r.
  - rewrite IH. now rewrite <- app_assoc.
Qed.

(** The stream descriptors of a network are the per-layer conversions of the
    layers that [get_all_layer_infos(network_name)] returns, one per layer
    and in the same order, and [get_all_stream_infos] fails exactly when
    that query fails, with the same status. *)
Theorem get_all_stream_infos_of_layers (get_network_name : string -> string)
    (conv : LayerInfo -> hailo_stream_info_t) (m : CoreOpMetadata) (net : string) :
  get_all_stream_infos get_network_name conv m net
  = bindE (get_all_layer_infos_of get_network_name m net)
      (fun layer_infos => Ok (map conv layer_infos)).
Proof.
  unfold get_all_stream_infos, get_input_stream_infos, get_output_stream_infos,
    get_all_layer_infos_of, convert_layer_infos_to_stream_infos.
  destruct (get_input_layer_infos_of get_network_name m net) as [ins|]; simpl;
    [|reflexivity].
  destruct (get_output_layer_infos_of get_network_name m net) as [outs|]; simpl;
    [|reflexivity].
  rewrite !map_loop. simpl. now rewrite map_app.
Qed.

(** With [hailo_net_flow] set, [get_all_vstream_infos] filters only the input
    side by network: it fails with NotFound when the request selects no
    input layer, and otherwise returns the deduplicated descriptors of the
    selected input layers followed by all of [m_output_vstreams_infos],
    whether or not any output layer belongs to the network. *)
Theorem get_all_vstream_infos_net_flow (get_network_name : string -> string)
    (conv : LayerInfo -> list hailo_vstream_info_t) (m : CoreOpMetadata) (net : string)
    (Hflow : hailo_net_flow (m_supported_features m) = true) :
  get_all_vstream_infos get_network_name conv m net
  = bindE (not_found_if_empty (requested_input_layers get_network_name m net))
      (fun input_layer_infos =>
         Ok (first_occurrences [] (flat_map conv input_layer_infos)
             ++ m_output_vstreams_infos m)).
Proof.
  unfold get_all_vstream_infos, get_input_vstream_infos, get_output_vstream_infos.
  rewrite Hflow, get_input_layer_infos_of_requested.
  destruct (not_found_if_empty (requested_input_layers get_network_name m net)); simpl;
    [|reflexivity].
  now rewrite convert_first_occurrences.
Qed.

(** With net flow set, the sample model asked for a network that no layer
    belongs to fails on the input side only; asked for its own network it
    returns the input descriptor and the pre-resolved output list. *)
Lemma get_all_vstream_infos_net_flow_witness :
  hailo_net_flow (m_supported_features (sample_model true)) = true
  /\ get_all_vstream_infos sample_network_name sample_vstream_infos (sample_model true) "net1"
     = Unexpected HAILO_NOT_FOUND
  /\ get_all_vstream_infos sample_network_name sample_vstream_infos (sample_model true) "net0"
     = Ok [mkVStreamInfo "in0" "net0" HAILO_H2D_STREAM].
Proof.
  split; [reflexivity|]. split.
  - exact (get_all_vstream_infos_net_flow sample_network_name sample_vstream_infos
             (sample_model true) "net1" eq_refl).
  - exact (get_all_vstream_infos_net_flow sample_network_name sample_vstream_infos
             (sample_model true) "net0" eq_refl).
Defined.

(** The conversion to virtual-stream descriptors loses no name and invents
    none: a name is in the result exactly when the conversion of one of the
    layers yields a descriptor of that name, and the result is never longer
    than the concatenation of the per-layer results. *)
Theorem convert_layer_infos_to_vstream_infos_names
    (conv : LayerInfo -> list hailo_vstream_info_t) (layers : list LayerInfo) (n : string) :
  (In n (map vs_name (convert_layer_infos_to_vstream_infos conv layers))
   <-> exists layer_info, In layer_info layers /\ In n (map vs_name (conv layer_info)))
  /\ List.length (convert_layer_infos_to_vstream_infos conv layers)
     <= List.length (flat_map conv layers).
Proof.
  rewrite convert_first_occurrences. split.
  - rewrite first_occurrences_names. simpl. rewrite in_map_iff. split.
    + intros [[info [Hname Hin]] _]. apply in_flat_map in Hin.
      destruct Hin as [l [Hl Hinfo]]. exists l. split; [exact Hl|].
      apply in_map_iff. now exists info.
    + intros [l [Hl Hn]]. split; [|tauto].
      apply in_map_iff in Hn. destruct Hn as [info [Hname Hinfo]].
      exists info. split; [exact Hname|]. apply in_flat_map. now exists l.
  - generalize (@nil string) as seen.
    induction (flat_map conv layers) as [|x l IH]; intros seen; simpl; [lia|].
    destruct (existsb (String.eqb (vs_name x)) seen); simpl.
    + specialize (IH seen). lia.
    + specialize (IH (seen ++ [vs_name x])). lia.
Qed.

(** ** The per-arch map, call by call *)

(** Storing and looking up: after [add_metadata] for a bitmap other than the
    sentinel, [get_metadata] of that bitmap returns the stored variant, every
    other concrete bitmap answers as before the call, and the sentinel lookup
    returns a variant and cannot stop at its [assert]. *)
Theorem add_metadata_then_get_metadata (ignore : Z) (m : MetadataPerArch)
    (metadata : CoreOpMetadata) (bitmap other : Z) :
  (bitmap <> ignore ->
     get_metadata ignore (add_metadata m metadata bitmap) bitmap = Returns (Ok metadata))
  /\ (other <> ignore -> other <> bitmap ->
      get_metadata ignore (add_metadata m metadata bitmap) other
      = get_metadata ignore m other)
  /\ (exists stored,
        get_metadata ignore (add_metadata m metadata bitmap) ignore = Returns (Ok stored)).
Proof.
  unfold get_metadata, add_metadata. split; [|split].
  - intros Hne. assert (E : (ignore =? bitmap)%Z = false) by (apply Z.eqb_neq; congruence).
    rewrite E, map_lookup_assign. now rewrite Z.eqb_refl.
  - intros Hne Hother.
    assert (E : (ignore =? other)%Z = false) by (apply Z.eqb_neq; congruence).
    rewrite E, map_lookup_assign.
    assert (E' : (other =? bitmap)%Z = false) by now apply Z.eqb_neq.
    now rewrite E'.
  - rewrite Z.eqb_refl.
    destruct (map_assign m bitmap metadata) as [|[k v] rest] eqn:Em.
    + destruct m as [|[k0 v0] m]; simpl in Em; [discriminate|].
      destruct (bitmap <? k0)%Z; [discriminate|].
      destruct (bitmap =? k0)%Z; discriminate.
    + now exists v.
Qed.

(** ** The network-info table *)

Lemma length_list_ascii_of_string (s : string) :
  List.length (list_ascii_of_string s) = String.length s.
Proof. induction s as [|ch s IH]; simpl; [reflexivity|now rewrite IH]. Qed.

Lemma skipn_repeat_zero {T : Type} (x : T) (n total : nat) :
  skipn n (repeat x total) = repeat x (total - n).
Proof.
  revert n. induction total as [|total IH]; intros n; simpl.
  - now destruct n.
  - destruct n as [|n]; simpl; [reflexivity|apply IH].
Qed.

Lemma network_info_of_chars (max_size : nat) (network_name : string) :
  ni_name (network_info_of max_size network_name)
  = list_ascii_of_string network_name
      ++ zero :: repeat zero (max_size - (String.length network_name + 1)).
Proof.
  unfold network_info_of, memcpy, c_str. simpl.
  rewrite <- (length_list_ascii_of_string network_name) at 1.
  replace (List.length (list_ascii_of_string network_name) + 1)
    with (List.length (list_ascii_of_string network_name ++ [zero]))
    by now rewrite length_app.
  rewrite firstn_all, skipn_repeat_zero, <- app_assoc. reflexivity.
Qed.

Lemma read_c_string_chars (s : string) (rest : list ascii) :
  no_nul s -> read_c_string (list_ascii_of_string s ++ zero :: rest) = s.
Proof.
  unfold no_nul. induction s as [|ch s IH]; simpl; intros Hs; [reflexivity|].
  destruct (Ascii.eqb ch zero) eqn:E.
  - apply Ascii.eqb_eq in E. subst. tauto.
  - rewrite IH; [reflexivity|tauto].
Qed.

Lemma network_infos_from_all (max_size : nat) (names : list string) :
  forall network_infos,
    network_infos_from max_size names network_infos
    = if forallb (fun n => Nat.leb (String.length n + 1) max_size) names
      then Ok (network_infos ++ map (network_info_of max_size) names)
      else Unexpected HAILO_INTERNAL_FAILURE.
Proof.
  induction names as [|n names IH]; intros network_infos; simpl.
  - now rewrite app_nil_r.
  - destruct (Nat.leb (String.length n + 1) max_size); simpl; [|reflexivity].
    rewrite IH. fold (network_info_of max_size n).
    destruct (forallb _ names); [|reflexivity]. now rewrite <- app_assoc.
Qed.

(** [get_network_infos] succeeds exactly when every sorted network name, with
    its terminating NUL, fits the name array.  It then returns one entry per
    name, in order; each array has the full size and, read as a C string,
    gives back the network name when the name holds no NUL character.
    Otherwise it fails with InternalFailure. *)
Theorem get_network_infos_table (max_size : nat) (m : CoreOpMetadata) :
  match get_network_infos max_size m with
  | Ok network_infos =>
      Forall (fun n => String.length n + 1 <= max_size) (m_sorted_network_names m)
      /\ Forall2
           (fun n network_info =>
              List.length (ni_name network_info) = max_size
              /\ (no_nul n -> read_c_string (ni_name network_info) = n))
           (m_sorted_network_names m) network_infos
  | Unexpected status =>
      status = HAILO_INTERNAL_FAILURE
      /\ exists n, In n (m_sorted_network_names m) /\ max_size < String.length n + 1
  end.
Proof.
  unfold get_network_infos. rewrite network_infos_from_all. simpl.
  generalize (m_sorted_network_names m) as names. intros names.
  destruct (forallb _ names) eqn:E.
  - rewrite forallb_forall in E.
    assert (Hfit : Forall (fun n => String.length n + 1 <= max_size) names).
    { apply Forall_forall. intros n Hn. apply Nat.leb_le. now apply E. }
    split; [exact Hfit|]. clear E.
    induction Hfit as [|n names Hn _ IH]; simpl; [constructor|].
    constructor; [|exact IH].
    rewrite network_info_of_chars. split.
    + rewrite length_app, length_list_ascii_of_string. simpl. rewrite repeat_length. lia.
    + apply read_c_string_chars.
  - split; [reflexivity|].
    assert (Hex : existsb (fun n => negb (Nat.leb (String.length n + 1) max_size))
                    names = true).
    { induction names as [|n names IH]; simpl in *; [discriminate|].
      destruct (Nat.leb (String.length n + 1) max_size); simpl in *; [now apply IH|reflexivity]. }
    apply existsb_exists in Hex. destruct Hex as [n [Hn Hlen]].
    exists n. split; [exact Hn|].
    apply negb_true_iff, Nat.leb_gt in Hlen. exact Hlen.
Qed.

(** ** Actions of a context *)

(** [get_actions_of_type] returns the actions of the context whose type is in
    the requested set, in execution order: no action of another type is
    returned, and every action of a requested type is returned as often as
    the context holds it. *)
Theorem get_actions_of_type_filter (c : ContextMetadata) (action_types : list nat) :
  get_actions_of_type c action_types
    = filter (fun action => existsb (Nat.eqb action) action_types) (m_actions c)
  /\ Forall (fun action => In action action_types) (get_actions_of_type c action_types)
  /\ (forall action,
        In action action_types ->
        count_occ Nat.eq_dec (get_actions_of_type c action_types) action
        = count_occ Nat.eq_dec (m_actions c) action).
Proof.
  assert (Heq : get_actions_of_type c action_types
                = filter (fun action => existsb (Nat.eqb action) action_types) (m_actions c)).
  { unfold get_actions_of_type. now rewrite push_back_loop. }
  rewrite Heq. clear Heq. generalize (m_actions c) as actions. intros actions.
  split; [reflexivity|]. split.
  - apply Forall_forall. intros a Ha. apply filter_In in Ha. destruct Ha as [_ Ha].
    apply existsb_exists in Ha. destruct Ha as [t [Ht Hat]].
    apply Nat.eqb_eq in Hat. now subst.
  - intros a Ha.
    assert (Hkeep : existsb (Nat.eqb a) action_types = true).
    { apply existsb_exists. exists a. split; [exact Ha|apply Nat.eqb_refl]. }
    induction actions as [|x l IH]; simpl; [reflexivity|].
    destruct (existsb (Nat.eqb x) action_types) eqn:Ex; simpl.
    + destruct (Nat.eq_dec x a); [now rewrite IH|exact IH].
    + destruct (Nat.eq_dec x a) as [->|]; [congruence|exact IH].
Qed.

(** ** Output virtual streams at concrete models *)

(** Two output layers, one of a name missing from the sorted output names. *)
Lemma get_output_vstream_infos_detects_absent_witness :
  let m := single_context_model false ["conv1"]
             [leaf_layer "out0" HAILO_D2H_STREAM "net0";
              leaf_layer "conv1" HAILO_D2H_STREAM "net0"] in
  let layers := [leaf_layer "out0" HAILO_D2H_STREAM "net0";
                 leaf_layer "conv1" HAILO_D2H_STREAM "net0"] in
  (hailo_net_flow (m_supported_features m) = false
   /\ get_output_layer_infos_of sample_network_name m "" = Ok layers
   /\ 2 <= List.length (convert_layer_infos_to_vstream_infos sample_vstream_infos layers)
   /\ existsb (name_absent m) (convert_layer_infos_to_vstream_infos sample_vstream_infos layers)
      = true)
  /\ get_output_vstream_infos sample_network_name sample_vstream_infos m ""
     = Unexpected HAILO_INTERNAL_FAILURE.
Proof.
  intros m layers.
  assert (Hlen : 2 <= List.length
                        (convert_layer_infos_to_vstream_infos sample_vstream_infos layers))
    by (vm_compute; lia).
  split; [repeat split; exact Hlen|].
  exact (get_output_vstream_infos_detects_absent sample_network_name sample_vstream_infos
           m "" layers eq_refl eq_refl Hlen eq_refl).
Defined.

(** Three output layers whose names are all among the sorted output names. *)
Lemma get_output_vstream_infos_ordered_witness :
  let layers := [leaf_layer "a" HAILO_D2H_STREAM "net0";
                 leaf_layer "b" HAILO_D2H_STREAM "net0";
                 leaf_layer "c" HAILO_D2H_STREAM "net0"] in
  let m := single_context_model false ["c"; "a"; "b"] layers in
  (hailo_net_flow (m_supported_features m) = false
   /\ get_output_layer_infos_of sample_network_name m "" = Ok layers
   /\ Forall (fun info => name_absent m info = false)
        (convert_layer_infos_to_vstream_infos sample_vstream_infos layers))
  /\ exists res,
       get_output_vstream_infos sample_network_name sample_vstream_infos m "" = Ok res
       /\ StronglySorted (by_output_index m) res
       /\ Permutation res (convert_layer_infos_to_vstream_infos sample_vstream_infos layers).
Proof.
  intros layers m.
  assert (Hall : Forall (fun info => name_absent m info = false)
                   (convert_layer_infos_to_vstream_infos sample_vstream_infos layers)).
  { vm_compute convert_layer_infos_to_vstream_infos. repeat constructor. }
  split; [repeat split; exact Hall|].
  exact (get_output_vstream_infos_ordered sample_network_name sample_vstream_infos
           m "" layers eq_refl eq_refl Hall).
Defined.

(** ** Failures of the transfer-size computation *)

Lemma failure_of_as_size_t (e : Expected Z) : failure_of (as_size_t e) = failure_of e.
Proof. now destruct e. Qed.

Lemma get_context_transfer_size_failure (get_transfer_size : LayerInfo -> Expected Z)
    (c : ContextMetadata) :
  failure_of (get_context_transfer_size get_transfer_size c)
  = failure_of (context_transfer_size_spec get_transfer_size c).
Proof.
  unfold get_context_transfer_size, context_transfer_size_spec, all_edge_layers.
  rewrite !get_layers_transfer_size_sum, !sum_transfer_sizes_app.
  destruct (sum_transfer_sizes _ (m_boundary_input_layers c)); simpl; [|reflexivity].
  destruct (sum_transfer_sizes _ (m_boundary_output_layers c)); simpl; [|reflexivity].
  destruct (sum_transfer_sizes _ (m_ddr_input_layers c)); simpl; [|reflexivity].
  destruct (sum_transfer_sizes _ (m_ddr_output_layers c)); simpl; [|reflexivity].
  destruct (sum_transfer_sizes _ (m_inter_context_input_layers c)); simpl; [|reflexivity].
  now destruct (sum_transfer_sizes _ (m_inter_context_output_layers c)).
Qed.

Lemma total_transfer_size_from_failure (get_transfer_size : LayerInfo -> Expected Z)
    (contexts : list ContextMetadata) :
  forall total,
    failure_of (total_transfer_size_from get_transfer_size contexts total)
    = failure_of (total_transfer_size_spec get_transfer_size contexts).
Proof.
  induction contexts as [|c rest IH]; intros total; simpl; [reflexivity|].
  pose proof (get_context_transfer_size_failure get_transfer_size c) as Hc.
  destruct (get_context_transfer_size get_transfer_size c) as [size|status];
    destruct (context_transfer_size_spec get_transfer_size c) as [size'|status'];
    simpl in *; try discriminate.
  - rewrite IH. now destruct (total_transfer_size_spec get_transfer_size rest).
  - exact Hc.
Qed.

(** Whatever the config-buffer sizes, [get_total_transfer_size] fails exactly
    when the size function fails on an edge layer of a dynamic context, and
    then with the status of the first such layer, contexts in order and
    within a context boundary, DDR and inter-context lists, inputs before
    outputs; the layers of the preliminary context are never asked. *)
Theorem get_total_transfer_size_failure (get_transfer_size : LayerInfo -> Expected Z)
    (m : CoreOpMetadata) :
  failure_of (get_total_transfer_size get_transfer_size m)
  = failure_of (sum_transfer_sizes get_transfer_size
                  (flat_map all_edge_layers (m_dynamic_contexts m))).
Proof.
  unfold get_total_transfer_size. rewrite total_transfer_size_from_failure.
  induction (m_dynamic_contexts m) as [|c rest IH]; simpl; [reflexivity|].
  rewrite sum_transfer_sizes_app. unfold context_transfer_size_spec.
  destruct (sum_transfer_sizes get_transfer_size (all_edge_layers c)); simpl;
    [|reflexivity].
  destruct (total_transfer_size_spec get_transfer_size rest);
    destruct (sum_transfer_sizes get_transfer_size (flat_map all_edge_layers rest));
    simpl in *; congruence.
Qed.

(** ** More on the conversion and the unfiltered queries *)

Lemma first_occurrences_seen (l : list hailo_vstream_info_t) :
  forall seen,
    (forall info, In info l -> In (vs_name info) seen) ->
    first_occurrences seen l = [].
Proof.
  induction l as [|x l IH]; intros seen Hall; simpl; [reflexivity|].
  assert (Hx : existsb (String.eqb (vs_name x)) seen = true).
  { apply existsb_eqb_In. apply Hall. now left. }
  rewrite Hx. apply IH. intros info Hin. apply Hall. now right.
Qed.

(** Layers handed to the conversion a second time add nothing: the
    descriptors of a list of layers followed by some of the same layers are
    those of the list alone. *)
Theorem convert_layer_infos_to_vstream_infos_repeated
    (conv : LayerInfo -> list hailo_vstream_info_t) (layers again : list LayerInfo)
    (Hagain : incl again layers) :
  convert_layer_infos_to_vstream_infos conv (layers ++ again)
  = convert_layer_infos_to_vstream_infos conv layers.
Proof.
  rewrite !convert_first_occurrences, flat_map_app, first_occurrences_app.
  rewrite (first_occurrences_seen (flat_map conv again)); [apply app_nil_r|].
  intros info Hin. simpl. apply first_occurrences_names. split; [|tauto].
  apply in_flat_map in Hin. destruct Hin as [l [Hl Hinfo]].
  apply in_map. apply in_flat_map. exists l. split; [now apply Hagain|exact Hinfo].
Qed.

(** Both fragments of the fused layer handed over once more. *)
Lemma convert_layer_infos_to_vstream_infos_repeated_witness :
  let fragments :=
    [defused_layer "nms_frag0" HAILO_D2H_STREAM "net0" [leaf_layer "nms" HAILO_D2H_STREAM "net0"];
     defused_layer "nms_frag1" HAILO_D2H_STREAM "net0" [leaf_layer "nms" HAILO_D2H_STREAM "net0"]] in
  incl fragments fragments
  /\ convert_layer_infos_to_vstream_infos sample_vstream_infos (fragments ++ fragments)
     = [mkVStreamInfo "nms" "net0" HAILO_D2H_STREAM].
Proof.
  intros fragments. split; [apply incl_refl|].
  exact (convert_layer_infos_to_vstream_infos_repeated sample_vstream_infos
           fragments fragments (incl_refl fragments)).
Defined.

(** Asked for the empty name or for the default network name, the filtered
    layer queries return what the unfiltered queries return, except that they
    fail with NotFound where the unfiltered queries return an empty list. *)
Theorem filtered_by_no_network_is_unfiltered (get_network_name : string -> string)
    (m : CoreOpMetadata) :
  (get_input_layer_infos_of get_network_name m "" = not_found_if_empty (get_input_layer_infos m)
   /\ get_output_layer_infos_of get_network_name m ""
      = not_found_if_empty (get_output_layer_infos m))
  /\ (get_input_layer_infos_of get_network_name m (default_network_name get_network_name m)
      = not_found_if_empty (get_input_layer_infos m)
      /\ get_output_layer_infos_of get_network_name m (default_network_name get_network_name m)
         = not_found_if_empty (get_output_layer_infos m)).
Proof.
  rewrite !get_input_layer_infos_of_requested, !get_output_layer_infos_of_requested.
  rewrite get_input_layer_infos_flat, get_output_layer_infos_flat.
  unfold requested_input_layers, requested_output_layers, requested_layers.
  rewrite !String.eqb_refl, ?orb_true_r. simpl. now repeat split.
Qed.

(** ** What a successful ordering guarantees *)

Lemma std_find_absent (names : list string) (n : string) :
  Nat.eqb (List.length names) (std_find names n) = false <-> In n names.
Proof.
  induction names as [|x names IH]; simpl.
  - split; [discriminate|contradiction].
  - destruct (String.eqb x n) eqn:E.
    + apply String.eqb_eq in E. split; [now left|reflexivity].
    + apply String.eqb_neq in E. simpl. rewrite IH. split; [now right|].
      intros [H|H]; [contradiction|exact H].
Qed.

(** Without [hailo_net_flow], a successful [get_output_vstream_infos] returns
    the derived descriptors, none lost and none added; and when it returns
    two or more, they are in the order of the sorted output names and each of
    their names is in that list. *)
Theorem get_output_vstream_infos_success (get_network_name : string -> string)
    (conv : LayerInfo -> list hailo_vstream_info_t) (m : CoreOpMetadata) (net : string)
    (layers : list LayerInfo) (res : list hailo_vstream_info_t)
    (Hflow : hailo_net_flow (m_supported_features m) = false)
    (Hlayers : get_output_layer_infos_of get_network_name m net = Ok layers)
    (Hres : get_output_vstream_infos get_network_name conv m net = Ok res) :
  Permutation res (convert_layer_infos_to_vstream_infos conv layers)
  /\ (2 <= List.length res ->
      StronglySorted (by_output_index m) res
      /\ Forall (fun info => In (vs_name info) (m_sorted_output_names m)) res).
Proof.
  unfold get_output_vstream_infos in Hres. rewrite Hflow, Hlayers in Hres.
  cbn [bindE] in Hres.
  remember (convert_layer_infos_to_vstream_infos conv layers) as derived eqn:Ederived.
  clear Ederived.
  destruct (existsb (name_absent m) derived) eqn:Eabs.
  - destruct derived as [|a [|b rest]].
    + simpl in Hres. injection Hres as <-. split; [constructor|simpl; lia].
    + simpl in Hres. injection Hres as <-. split; [reflexivity|simpl; lia].
    + pose proof (std_sort_detects_absent m (a :: b :: rest)) as Hfail.
      destruct (std_sort (output_order_comp m) (a :: b :: rest) HAILO_SUCCESS)
        as [sorted status].
      simpl in Hfail. rewrite Hfail in Hres; [discriminate|lia|exact Eabs].
  - assert (Hall : Forall (fun info => name_absent m info = false) derived).
    { apply Forall_forall. intros info Hin.
      destruct (name_absent m info) eqn:E; [|reflexivity].
      assert (Hex : existsb (name_absent m) derived = true)
        by (apply existsb_exists; now exists info).
      congruence. }
    destruct derived as [|first rest].
    + simpl in Hres. injection Hres as <-. split; [constructor|simpl; lia].
    + unfold std_sort in Hres.
      destruct (insertion_sort_sorted m rest [first] HAILO_SUCCESS Hall)
        as [sorted [Hsort [Hsorted Hperm]]]; [repeat constructor|].
      rewrite Hsort in Hres. simpl in Hres. injection Hres as <-.
      split; [exact Hperm|]. intros _. split; [exact Hsorted|].
      apply (Permutation_Forall (x := first :: rest)); [now symmetry|].
      revert Hall. apply Forall_impl. intros info Hinfo.
      now apply std_find_absent.
Qed.

(** The three output layers of the ordering example, returned in the order
    of the sorted output names. *)
Lemma get_output_vstream_infos_success_witness :
  let layers := [leaf_layer "a" HAILO_D2H_STREAM "net0";
                 leaf_layer "b" HAILO_D2H_STREAM "net0";
                 leaf_layer "c" HAILO_D2H_STREAM "net0"] in
  let m := single_context_model false ["c"; "a"; "b"] layers in
  let res := [mkVStreamInfo "c" "net0" HAILO_D2H_STREAM;
              mkVStreamInfo "a" "net0" HAILO_D2H_STREAM;
              mkVStreamInfo "b" "net0" HAILO_D2H_STREAM] in
  (hailo_net_flow (m_supported_features m) = false
   /\ get_output_layer_infos_of sample_network_name m "" = Ok layers
   /\ get_output_vstream_infos sample_network_name sample_vstream_infos m "" = Ok res)
  /\ Permutation res (convert_layer_infos_to_vstream_infos sample_vstream_infos layers)
  /\ (2 <= List.length res ->
      StronglySorted (by_output_index m) res
      /\ Forall (fun info => In (vs_name info) (m_sorted_output_names m)) res).
Proof.
  intros layers m res. split; [now repeat split|].
  exact (get_output_vstream_infos_success sample_network_name sample_vstream_infos
           m "" layers res eq_refl eq_refl eq_refl).
Defined.
